(** * outrigger.psi.compute: percent spliced-in from junction reads

    A shallow embedding of [src/outrigger/psi/compute.py] and the
    properties of its sample classifier, coverage filter, event reducer
    and table builder.

    Modelling conventions.
    - A pandas Series holding one sample's reads is a list of values of
      its dtype, addressed by position as [.iloc] does.  The code is
      written once for every dtype, and so is the model: the class
      [Dtype] lists the operations the code applies to reads.  Its two
      instances are [int64], integers whose products and sums wrap around
      at 64 bits, and [float64], IEEE 754 doubles with NaN, which is the
      dtype of a row as soon as one read of the table is missing.
    - A Python exception is a value [Raise e] of the [result] monad; a
      function that returns normally yields [Ok v].
    - Python's [None] for "no reads" is a constructor of its own, as is
      the string ['???'] that the classifier returns when no rule fires.
    - [import pdb; pdb.set_trace()] pauses in the debugger and changes no
      value: it is a no-op here.
    - Line 136 of the source reads [min_reads, case letters='ab']; the
      docstring and every call site give the two parameters [case] and
      [letters], which is how the signature is taken here. *)

From Stdlib Require Import ZArith List String Ascii Lia QArith.
From Stdlib Require Import Floats.SpecFloat.
From stdpp Require Import base option list strings gmap.

Local Open Scope string_scope.
Local Open Scope Z_scope.

(** ** Exceptions and results *)

Inductive exn : Set :=
  | IndexError
  | KeyError
  | ValueError
  | TypeError
  | AttributeError
  | UnboundLocalError.

Inductive result (A : Type) : Type :=
  | Ok (a : A)
  | Raise (e : exn).

Arguments Ok {A} a.
Arguments Raise {A} e.

#[global] Instance result_ret : MRet result := fun _ a => Ok a.
#[global] Instance result_bind : MBind result := fun _ _ f m =>
  match m with
  | Ok a => f a
  | Raise e => Raise e
  end.

Definition returns {A} (m : result A) : Prop := exists a, m = Ok a.

(** ** Numbers *)

(** A signed 64-bit integer: the value of [z] after wrap-around. *)
Definition wrap64 (z : Z) : Z := (z + 2 ^ 63) mod 2 ^ 64 - 2 ^ 63.

(** [z] is a signed 64-bit integer as it stands. *)
Definition in_int64 (z : Z) : Prop := - 2 ^ 63 <= z < 2 ^ 63.

Module F64.

(** IEEE 754 binary64, as the standard library specifies it. *)
Definition prec : Z := 53.
Definition emax : Z := 1024.

(** [float(z)]: the double nearest to the integer [z]. *)
Definition of_Z (z : Z) : spec_float := binary_normalize prec emax z 0 false.

Definition zero : spec_float := S754_zero false.
Definition nan : spec_float := S754_nan.

Definition mul (x y : spec_float) : spec_float := SFmul prec emax x y.
Definition add (x y : spec_float) : spec_float := SFadd prec emax x y.
Definition div (x y : spec_float) : spec_float := SFdiv prec emax x y.

Definition is_nan (x : spec_float) : bool :=
  match x with
  | S754_nan => true
  | _ => false
  end.

(** [s.sum()] on doubles: NaN entries are skipped, the rest added from
    the left. *)
Definition sum (s : list spec_float) : spec_float :=
  fold_left (fun acc x => if is_nan x then acc else add acc x) s zero.

(** [s.min()] on doubles: NaN entries are skipped; NaN when nothing is
    left. *)
Definition min (s : list spec_float) : spec_float :=
  fold_left (fun acc x =>
               if is_nan x then acc
               else if is_nan acc then x
               else if SFltb x acc then x else acc) s nan.

End F64.

(** A number a reduction hands back: a 64-bit integer or a double. *)
Inductive scalar : Type :=
  | Int (z : Z)
  | Float (f : spec_float).

(** ** The dtype of a Series *)

(** The operations the code applies to reads, for a Series whose
    entries have type [T]: [x * k], [a > b], [x >= k], [x < k], [x == k]
    against Python integers [k]; [s.sum()], the sum of two such sums,
    [s.min()], and the conversion that [/ float(n)] applies. *)
Class Dtype (T : Type) : Type := {
  dt_mul : T -> Z -> T;
  dt_gt : T -> T -> bool;
  dt_ge : T -> Z -> bool;
  dt_lt : T -> Z -> bool;
  dt_eq : T -> Z -> bool;
  dt_sum : list T -> T;
  dt_add : T -> T -> T;
  dt_min : list T -> scalar;
  dt_float : T -> spec_float
}.

(** An int64 Series.  Products and sums wrap around; comparisons with a
    Python integer are exact; the minimum of no entry is NaN. *)
#[global] Instance int64 : Dtype Z := {
  dt_mul x k := wrap64 (x * k);
  dt_gt a b := a >? b;
  dt_ge x k := x >=? k;
  dt_lt x k := x <? k;
  dt_eq x k := x =? k;
  dt_sum s := wrap64 (fold_right Z.add 0 s);
  dt_add a b := wrap64 (a + b);
  dt_min s :=
    match s with
    | [] => Float F64.nan
    | a :: rest => Int (foldr Z.min a rest)
    end;
  dt_float x := F64.of_Z x
}.

(** A float64 Series.  Every comparison with NaN is false. *)
#[global] Instance float64 : Dtype spec_float := {
  dt_mul x k := F64.mul x (F64.of_Z k);
  dt_gt a b := SFltb b a;
  dt_ge x k := SFleb (F64.of_Z k) x;
  dt_lt x k := SFltb x (F64.of_Z k);
  dt_eq x k := SFeqb x (F64.of_Z k);
  dt_sum s := F64.sum s;
  dt_add a b := F64.add a b;
  dt_min s := Float (F64.min s);
  dt_float x := x
}.

(** ** Series of one sample's reads *)

Module Series.

Section ops.

Context {T : Type} `{Dtype T}.

(** [s.iloc[i]]: positional access, [IndexError] out of bounds. *)
Definition iloc (s : list T) (i : nat) : result T :=
  match s !! i with
  | Some x => Ok x
  | None => Raise IndexError
  end.

(** [s * k], element-wise. *)
Definition mul (s : list T) (k : Z) : list T := map (fun x => dt_mul x k) s.

(** [s.sum()]. *)
Definition sum (s : list T) : T := dt_sum s.

(** [(s <op> k).all()] and [(s <op> k).any()]. *)
Definition all (p : T -> bool) (s : list T) : bool := forallb p s.
Definition any (p : T -> bool) (s : list T) : bool := existsb p s.

End ops.

End Series.

(** ** Coverage filter *)

Section filter.

Context {T : Type} `{Dtype T}.

Definition _single_sample_check_unequal_read_coverage
    (isoform : list T) (multiplier : Z) : result (option (list T)) :=
  if decide (length isoform = 1%nat) then Ok (Some isoform)
  else
    let multiplied := Series.mul isoform multiplier in
    junction0 ← Series.iloc isoform 0;
    junction1 ← Series.iloc isoform 1;
    first ← (if dt_gt junction0 junction1
             then m1 ← Series.iloc multiplied 1; Ok (dt_gt junction0 m1)
             else Ok false);
    if (first : bool) then Ok None
    else
      second ← (if dt_gt junction1 junction0
                then m0 ← Series.iloc multiplied 0; Ok (dt_gt junction1 m0)
                else Ok false);
      if (second : bool) then Ok None else Ok (Some isoform).

End filter.

(** ** Total-reads check *)

(** What the classifier hands back in the place of an isoform's reads:
    the Series itself, [None], or the string ['???']. *)
Inductive reads_out (T : Type) : Type :=
  | Kept (s : list T)
  | NoReads
  | Unknown.

Arguments Kept {T} s.
Arguments NoReads {T}.
Arguments Unknown {T}.

(** [letters[i]] on a Python string. *)
Definition letter_at (letters : string) (i : nat) : result string :=
  match String.get i letters with
  | Some c => Ok (String c EmptyString)
  | None => Raise IndexError
  end.

Definition case0 := "Case 0: Unequal read coverage".
Definition case1 := "Case 1: Perfect exclusion".
Definition case2 := "Case 2: Perfect inclusion".
Definition case3 := "Case 3: Sufficient coverage on both isoforms".
Definition case4 :=
  "Case 4: Any observed junction is zero and it's not all of one isoform".
Definition case5 := "Case 5: Isoform1 totally covered and isoform2 not".
Definition case6 := "Case 6: Isoform2 is totally covered and isoform1 is not".
Definition case7 :=
  "Case 7: Isoform 1 is fully covered and isoform2 is questionable".
Definition case8 :=
  "Case 8: Isoform 1 is fully covered and isoform2 is questionable".
Definition case9 := "Case 9: Insufficient reads somehow".
Definition case9a :=
  "Case 9a: 3 junctions have less than minimum reads (2 on iso1 and 1 on iso2)".
Definition case9b :=
  "Case 9b: 3 junctions have less than minimum reads (2 on iso2 and one on iso1)".
Definition case10 :=
  "Case 10: isoform1 and isoform2 don't have sufficient reads".
Definition case_unknown := "Case ???".

Section classifier.

Context {T : Type} `{Dtype T}.

(** The test of line 159:
    [isoform1.sum() + isoform2.sum() >= min_reads * n_junctions]. *)
Definition enough_reads (isoform1 isoform2 : list T)
    (n_junctions min_reads : Z) : bool :=
  dt_ge (dt_add (Series.sum isoform1) (Series.sum isoform2))
        (min_reads * n_junctions).

Definition _single_sample_maybe_sufficient_reads
    (isoform1 isoform2 : list T) (n_junctions min_reads : Z)
    (case letters : string) : result (reads_out T * reads_out T * string) :=
  if enough_reads isoform1 isoform2 n_junctions min_reads
  then
    letter ← letter_at letters 0;
    Ok (Kept isoform1, Kept isoform2,
        case ++ ", option " ++ letter
             ++ ": There are sufficient junction reads")
  else
    letter ← letter_at letters 1;
    Ok (NoReads, NoReads,
        case ++ ", option " ++ letter
             ++ ": There are insufficient junction reads").

(** ** Sample classifier *)

(** The rule table of [_single_isoform_maybe_reject], lines 348-409, on
    two isoforms that passed the coverage filter. *)
Definition classify_covered
    (isoform1 isoform2 : list T) (n_junctions min_reads : Z)
    : result (reads_out T * reads_out T * string) :=
  let ge := fun x : T => dt_ge x min_reads in
  let lt := fun x : T => dt_lt x min_reads in
  let zero := fun x : T => dt_eq x 0 in
  if Series.all ge isoform1 && Series.all zero isoform2 then
    Ok (Kept isoform1, Kept isoform2, case1)
  else if Series.all zero isoform1 && Series.all ge isoform2 then
    Ok (Kept isoform1, Kept isoform2, case2)
  else if Series.all ge isoform1 && Series.all ge isoform2 then
    Ok (Kept isoform1, Kept isoform2, case3)
  else if Series.any zero isoform1 || Series.any zero isoform2 then
    Ok (NoReads, NoReads, case4)
  else if Series.all ge isoform1 && Series.all lt isoform2 then
    _single_sample_maybe_sufficient_reads
      isoform1 isoform2 n_junctions min_reads case5 "ab"
  else if Series.all lt isoform1 && Series.all ge isoform2 then
    _single_sample_maybe_sufficient_reads
      isoform1 isoform2 n_junctions min_reads case6 "ab"
  else if Series.all ge isoform1 && Series.any lt isoform2 then
    _single_sample_maybe_sufficient_reads
      isoform1 isoform2 n_junctions min_reads case7 "ab"
  else if Series.any lt isoform1 && Series.all ge isoform2 then
    _single_sample_maybe_sufficient_reads
      isoform1 isoform2 n_junctions min_reads case8 "ab"
  else if Series.any lt isoform1 || Series.any lt isoform2 then
    if Series.all lt isoform1 && Series.any lt isoform2 then
      Ok (NoReads, NoReads, case9a)
    else if Series.any lt isoform1 && Series.all lt isoform2 then
      Ok (NoReads, NoReads, case9b)
    else
      _single_sample_maybe_sufficient_reads
        isoform1 isoform2 n_junctions min_reads case9 "cd"
  else if Series.any lt isoform1 || Series.any lt isoform2 then
    Ok (NoReads, NoReads, case10)
  else
    Ok (Unknown, Unknown, case_unknown).

Definition _single_isoform_maybe_reject
    (isoform1 isoform2 : list T)
    (n_junctions min_reads uneven_coverage_multiplier : Z)
    : result (reads_out T * reads_out T * string) :=
  isoform1' ← _single_sample_check_unequal_read_coverage
                isoform1 uneven_coverage_multiplier;
  isoform2' ← _single_sample_check_unequal_read_coverage
                isoform2 uneven_coverage_multiplier;
  match isoform1', isoform2' with
  | Some isoform1, Some isoform2 =>
      classify_covered isoform1 isoform2 n_junctions min_reads
  | _, _ => Ok (NoReads, NoReads, case0)
  end.

End classifier.

(** ** Rows and frames of junction reads *)

(** One sample's reads, labelled by junction id. *)
Abbreviation row T := (list (string * T)).

Module Row.

Section ops.

Context {T : Type}.

(** [sample[label]]: [KeyError] when the label is not in the index. *)
Fixpoint get (sample : row T) (label : string) : result T :=
  match sample with
  | [] => Raise KeyError
  | (l, v) :: rest => if decide (l = label) then Ok v else get rest label
  end.

(** [sample[labels]] for a list of labels. *)
Definition select (sample : row T) (labels : list string) : result (list T) :=
  mapM (get sample) labels.

End ops.

End Row.

(** The row [_single_maybe_reject] returns: the sample's cells, each
    either a read or the NaN of [pd.Series(None, ...)], and the extra
    field ['Case']. *)
Record judged_row (T : Type) : Type := JudgedRow {
  cells : list (string * option T);
  Case : string
}.

Arguments JudgedRow {T} cells Case.
Arguments cells {T} j.
Arguments Case {T} j.

(** A (samples, junctions) table: its column labels and, for each sample
    id of its index, the reads on the columns in order. *)
Record frame (T : Type) : Type := Frame {
  frame_columns : list string;
  frame_rows : list (string * list T)
}.

Arguments Frame {T} frame_columns frame_rows.
Arguments frame_columns {T} f.
Arguments frame_rows {T} f.

Module Frame.

Section ops.

Context {T : Type}.

(** The rows as labelled Series, the way [apply(..., axis=1)] hands them
    to its function. *)
Definition samples (f : frame T) : list (string * row T) :=
  map (fun sv => (sv.1, combine (frame_columns f) sv.2)) (frame_rows f).

(** The sample ids of the index. *)
Definition index (f : frame T) : list string := map fst (frame_rows f).

(** [f[junction_cols]]: the column slice, [KeyError] on a label that is
    not a column. *)
Definition select (f : frame T) (junction_cols : list string)
    : result (frame T) :=
  if decide (Forall (fun l => l ∈ frame_columns f) junction_cols) then
    rows ← mapM (fun sv =>
                   values ← Row.select (combine (frame_columns f) sv.2)
                              junction_cols;
                   Ok (sv.1, values))
                (frame_rows f);
    Ok (Frame junction_cols rows)
  else Raise KeyError.

End ops.

End Frame.

(** The illegal junctions as [_maybe_reject] receives them: null
    ([pd.isnull] holds), the key of one column of [reads], or a list of
    column keys. *)
Inductive illegal : Type :=
  | NullIllegal
  | IllegalColumn (label : string)
  | IllegalColumns (labels : list string).

(** [zip( *labels)] on strings: the tuples of their first characters,
    of their second characters, and so on up to the shortest string;
    nothing when there is no string. *)
Definition zip_star (labels : list string) : list (list ascii) :=
  match labels with
  | [] => []
  | first :: rest =>
      let n := foldr Nat.min (String.length first) (map String.length rest) in
      map (fun i => omap (String.get i) labels) (seq 0 n)
  end.

Section reject.

Context {T : Type} `{Dtype T}.

Definition _single_maybe_reject
    (sample : row T) (isoform1_ids isoform2_ids : list string)
    (n_junctions min_reads uneven_coverage_multiplier : Z)
    : result (judged_row T) :=
  reads1 ← Row.select sample isoform1_ids;
  reads2 ← Row.select sample isoform2_ids;
  '(isoform1, isoform2, case) ←
    _single_isoform_maybe_reject reads1 reads2
      n_junctions min_reads uneven_coverage_multiplier;
  match isoform1 with
  | NoReads => Ok (JudgedRow (map (fun '(l, _) => (l, None)) sample) case)
  | _ => Ok (JudgedRow (map (fun '(l, v) => (l, Some v)) sample) case)
  end.

(** The rows of [reads.loc[~(reads[label] >= min_reads)]]. *)
Fixpoint drop_illegal_rows (columns : list string)
    (rows : list (string * list T)) (label : string) (min_reads : Z)
    : result (list (string * list T)) :=
  match rows with
  | [] => Ok []
  | (sample_id, values) :: rest =>
      v ← Row.get (combine columns values) label;
      rest' ← drop_illegal_rows columns rest label min_reads;
      if dt_ge v min_reads then Ok rest'
      else Ok ((sample_id, values) :: rest')
  end.

(** Lines 246-248 with one column key: [reads[label]] raises [KeyError]
    when the label is not a column. *)
Definition drop_illegal_coverage (reads : frame T) (label : string)
    (min_reads : Z) : result (frame T) :=
  if decide (label ∈ frame_columns reads) then
    rows ← drop_illegal_rows (frame_columns reads) (frame_rows reads)
             label min_reads;
    Ok (Frame (frame_columns reads) rows)
  else Raise KeyError.

(** Lines 246-248.  With a list of keys, [not pd.isnull(illegal_ids)]
    is the truth value of an array, a [ValueError] unless the list has
    one key; with one key, [reads[[label]] >= min_reads] is a frame of
    booleans, which [reads.loc[...]] refuses with a [ValueError]. *)
Definition without_illegal_coverage (reads : frame T)
    (illegal_ids : illegal) (min_reads : Z) : result (frame T) :=
  match illegal_ids with
  | NullIllegal => Ok reads
  | IllegalColumn label => drop_illegal_coverage reads label min_reads
  | IllegalColumns [label] =>
      if decide (label ∈ frame_columns reads) then Raise ValueError
      else Raise KeyError
  | IllegalColumns _ => Raise ValueError
  end.

(** The frame [reads.apply(..., axis=1)] builds at lines 251-256, one
    judged row per sample that is left. *)
Definition judged_frame
    (reads : frame T) (isoform1_ids isoform2_ids : list string)
    (illegal_ids : illegal)
    (n_junctions min_reads uneven_coverage_multiplier : Z)
    : result (list (string * judged_row T)) :=
  reads ← without_illegal_coverage reads illegal_ids min_reads;
  mapM (fun '(sample_id, sample) =>
          judged ← _single_maybe_reject sample isoform1_ids isoform2_ids
                     n_junctions min_reads uneven_coverage_multiplier;
          Ok (sample_id, judged))
       (Frame.samples reads).

(** [_maybe_reject] returns [zip( *frame)] of that frame.  Unpacking a
    frame iterates over its column labels, so the result is made of the
    characters of the labels: those of [reads], followed by ['Case']
    when some sample was judged. *)
Definition _maybe_reject
    (reads : frame T) (isoform1_ids isoform2_ids : list string)
    (illegal_ids : illegal)
    (n_junctions min_reads uneven_coverage_multiplier : Z)
    : result (list (list ascii)) :=
  judged ← judged_frame reads isoform1_ids isoform2_ids illegal_ids
             n_junctions min_reads uneven_coverage_multiplier;
  Ok (zip_star (match judged with
                | [] => frame_columns reads
                | _ => frame_columns reads ++ ["Case"]
                end)%list).

End reject.

(** ** Event reducer *)

(** One isoform's reads over all samples, indexed by (junction, sample). *)
Abbreviation junction_reads T := (list (string * string * T)).

Module Reads.

Section ops.

Context {T : Type}.

Definition junction (e : string * string * T) : string := e.1.1.
Definition sample (e : string * string * T) : string := e.1.2.
Definition value (e : string * string * T) : T := e.2.

(** The reads of one sample, in the order of the table. *)
Definition of_sample (reads : junction_reads T) (s : string) : list T :=
  map value (filter (fun e => sample e = s) reads).

(** [reads.groupby(level=1)]: the samples that occur, each with its reads. *)
Definition groupby_sample (reads : junction_reads T) : gmap string (list T) :=
  foldr (fun e g => <[sample e := value e :: default [] (g !! sample e)]> g)
        ∅ reads.

(** [len(x)] of the group a table entry belongs to. *)
Definition group_len (reads : junction_reads T) (s : string) : Z :=
  Z.of_nat (length (default [] (groupby_sample reads !! s))).

End ops.

End Reads.

(** What [_filter_and_scale] returns: its argument, or one value per
    sample ([None] where [_scale] returned Python's [None]). *)
Inductive reduced (T : Type) : Type :=
  | Unchanged (reads : junction_reads T)
  | PerSample (values : gmap string (option scalar)).

Arguments Unchanged {T} reads.
Arguments PerSample {T} values.

Section reducer.

Context {T : Type} `{Dtype T}.

(** [x.sum()/float(n_junctions)] is a division of doubles; [x.min()] is
    an entry of the Series. *)
Definition _scale (x : list T) (n_junctions : Z) (method : string)
    : option scalar :=
  if decide (method = "mean") then
    Some (Float (F64.div (dt_float (Series.sum x)) (F64.of_Z n_junctions)))
  else if decide (method = "min") then
    Some (dt_min x)
  else None.

Definition _filter_and_scale
    (reads : junction_reads T) (n_junctions : Z) (method : string)
    : reduced T :=
  match reads with
  | [] => Unchanged reads
  | _ =>
      let reads :=
        if decide (n_junctions > 1) then
          filter (fun e => Reads.group_len reads (Reads.sample e) = n_junctions)
                 reads
        else reads in
      PerSample ((fun x => _scale x n_junctions method)
                   <$> Reads.groupby_sample reads)
  end.

End reducer.

(** ** Event PSI calculator *)

(** An event with its junction roles already resolved to junction ids
    (the source resolves them through the first annotation row of the
    event, [junction_locations]); [illegal_junction_ids] is the cell of
    that row under the illegal-junction column. *)
Record event : Type := Event {
  isoform1_junction_ids : list string;
  isoform2_junction_ids : list string;
  illegal_junction_ids : illegal
}.

(** A named Series of PSI values, one per sample that has one. *)
Abbreviation psi_series := (string * gmap string scalar)%type.

Section calculator.

Context {T : Type} `{Dtype T}.

(** Lines 424-447.  Line 432 calls [.tolist()] on the illegal-junction
    cell: a cell that is not null, a [str], has no such method, an
    [AttributeError] before any read is looked at.  The statement after
    the call of [_maybe_reject] is [return], so the function returns
    [None] whenever it returns; lines 448-483 (reduction,
    [isoform2 / (isoform2 + isoform1)]) are never run. *)
Definition _single_event_psi
    (event_id : string) (ev : event) (junction_reads_2d : frame T)
    (min_reads : Z) (method : string) (multiplier : Z)
    : result (option (psi_series * gmap string scalar * gmap string scalar)) :=
  let n_junctions1 := Z.of_nat (length (isoform1_junction_ids ev)) in
  let n_junctions2 := Z.of_nat (length (isoform2_junction_ids ev)) in
  let n_junctions := n_junctions1 + n_junctions2 in
  match illegal_junction_ids ev with
  | NullIllegal =>
      let junction_cols :=
        (isoform1_junction_ids ev ++ isoform2_junction_ids ev)%list in
      reads ← Frame.select junction_reads_2d junction_cols;
      maybe_rejected ←
        _maybe_reject reads
          (isoform1_junction_ids ev) (isoform2_junction_ids ev)
          NullIllegal n_junctions min_reads multiplier;
      Ok None
  | _ => Raise AttributeError
  end.

(** ** PSI table builder *)

(** With [n_jobs == 1] the loop calls [_single_event_psi] on every event
    and appends nothing to [psis].  Otherwise the events go to
    [joblib.Parallel], which refuses [n_jobs == 0] with a [ValueError];
    each worker call passes [reads_col] in the position of [min_reads]
    next to the keyword [min_reads], a [TypeError]; and [psis] is never
    assigned before [return psis]. *)
Definition _maybe_parallelize_psi
    (event_annotation : list (string * event)) (junction_reads_2d : frame T)
    (min_reads : Z) (method : string) (multiplier : Z) (n_jobs : Z)
    : result (list (option psi_series)) :=
  if decide (n_jobs = 1) then
    let psis := [] in
    outputs ← mapM (fun '(event_id, ev) =>
                      _single_event_psi event_id ev junction_reads_2d
                        min_reads method multiplier)
                   event_annotation;
    Ok psis
  else if decide (n_jobs = 0) then Raise ValueError
  else
    outputs ← mapM (fun _ : string * event =>
                      @Raise (option psi_series) TypeError)
                   event_annotation;
    Raise UnboundLocalError.

End calculator.

(** A (samples, events) table of PSI values. *)
Record psi_table : Type := PsiTable {
  index : gset string;
  columns : list psi_series
}.

(** [pd.concat(psis, axis=1)]: [ValueError] when there is nothing to
    concatenate. *)
Definition pd_concat (psis : list psi_series) : result psi_table :=
  match psis with
  | [] => Raise ValueError
  | _ => Ok (PsiTable (⋃ (map (fun psi => dom psi.2) psis)) psis)
  end.

Section builder.

Context {T : Type} `{Dtype T}.

(** Lines 575-588.  The index of the (samples, junctions) table is a
    plain index of sample ids: it has no [levels], so the handler of an
    empty concatenation raises [AttributeError] at line 585, and it has
    one name only, so [index.names[1]] at line 587 raises [IndexError]. *)
Definition calculate_psi
    (event_annotation : list (string * event)) (junction_reads_2d : frame T)
    (min_reads : Z) (method : string) (multiplier : Z) (n_jobs : Z)
    : result psi_table :=
  psis ← _maybe_parallelize_psi event_annotation junction_reads_2d
           min_reads method multiplier n_jobs;
  let psis := omap id psis in
  match pd_concat psis with
  | Ok psi_df => Raise IndexError
  | Raise ValueError => Raise AttributeError
  | Raise e => Raise e
  end.

End builder.

(** ** Dropping flagged samples *)

(** A Series of floats indexed by sample id, as [_remove_insufficient_reads]
    takes it: each entry is a finite value or NaN ([None]).  The function
    compares the entries with 0 and replaces NaN, and computes nothing:
    a finite double is held as the rational it denotes. *)
Abbreviation float_series := (gmap string (option Q)).

Module FloatSeries.

(** The left result of [a.align(b, 'outer')]: the union of the two
    indexes, with NaN where [a] has no entry. *)
Definition align_outer (a b : gmap string (option Q))
    : gmap string (option Q) :=
  merge (fun x y =>
           match x, y with
           | Some v, _ => Some v
           | None, Some _ => Some None
           | None, None => None
           end) a b.

(** [a.fillna(0)]. *)
Definition fillna0 (a : gmap string (option Q)) : gmap string Q :=
  default 0%Q <$> a.

(** [v < 0]. *)
Definition negative (v : Q) : bool := negb (Qle_bool 0 v).

(** [(a < 0) | (b < 0)] on two Series over one index. *)
Definition any_negative (a b : gmap string Q) : gmap string bool :=
  merge (fun x y =>
           match x, y with
           | Some u, Some v => Some (negative u || negative v)
           | _, _ => None
           end) a b.

(** [a[~mask]]: the entries where the mask holds [False]. *)
Definition drop_masked (a : gmap string Q) (mask : gmap string bool)
    : gmap string Q :=
  filter (fun kv => mask !! kv.1 = Some false) a.

End FloatSeries.

Definition _remove_insufficient_reads (isoform1 isoform2 : gmap string (option Q))
    : gmap string Q * gmap string Q :=
  let aligned1 := FloatSeries.align_outer isoform1 isoform2 in
  let aligned2 := FloatSeries.align_outer isoform2 isoform1 in
  let isoform1 := FloatSeries.fillna0 aligned1 in
  let isoform2 := FloatSeries.fillna0 aligned2 in
  let invalid := FloatSeries.any_negative isoform1 isoform2 in
  (FloatSeries.drop_masked isoform1 invalid,
   FloatSeries.drop_masked isoform2 invalid).

(** The value a NaN-filled entry stands for. *)
Definition filled (v : option (option Q)) : Q := default 0%Q (mjoin v).

(** [v < 0] on a reduced value, the test of [_remove_insufficient_reads]. *)
Definition below_zero (v : scalar) : bool :=
  match v with
  | Int z => z <? 0
  | Float f => SFltb f F64.zero
  end.

(** The sign bit of a double; a NaN counts as positive. *)
Definition sign_bit (f : spec_float) : bool :=
  match f with
  | S754_zero s | S754_infinity s | S754_finite s _ _ => s
  | S754_nan => false
  end.

(** The sum of integer reads as a number, without wrap-around. *)
Definition total (s : list Z) : Z := fold_right Z.add 0 s.

(** ** The decision table of the specification *)

(** The rules of the ordered table, in the order they are tried. *)
Inductive rule : Set :=
  | R1 | R2 | R3 | R4 | R5 | R6 | R7 | R8 | R9a | R9b | R9c | R10.

Definition rule_table : list rule :=
  [R1; R2; R3; R4; R5; R6; R7; R8; R9a; R9b; R9c; R10].

(** The letter of the label suffix on acceptance and on rejection. *)
Definition accept_letter (r : rule) : string :=
  match r with R9c => "c" | _ => "a" end.

Definition reject_letter (r : rule) : string :=
  match r with R9c => "d" | _ => "b" end.

(** The rules that defer to the total-reads check. *)
Definition defers (r : rule) : bool :=
  match r with
  | R5 | R6 | R7 | R8 | R9c => true
  | _ => false
  end.

(** The label of a deferring rule where the table of the specification
    and the code agree on it; rule 8 is left out. *)
Definition deferring_label (r : rule) : option string :=
  match r with
  | R5 => Some case5
  | R6 => Some case6
  | R7 => Some case7
  | R9c => Some case9
  | _ => None
  end.

(** The labels that rules 0 to 9 can produce. *)
Definition labels_0_to_9 : list string :=
  [ case0; case1; case2; case3; case4;
    case5 ++ ", option a: There are sufficient junction reads";
    case5 ++ ", option b: There are insufficient junction reads";
    case6 ++ ", option a: There are sufficient junction reads";
    case6 ++ ", option b: There are insufficient junction reads";
    case7 ++ ", option a: There are sufficient junction reads";
    case7 ++ ", option b: There are insufficient junction reads";
    case8 ++ ", option a: There are sufficient junction reads";
    case8 ++ ", option b: There are insufficient junction reads";
    case9a; case9b;
    case9 ++ ", option c: There are sufficient junction reads";
    case9 ++ ", option d: There are insufficient junction reads" ].

Section table.

Context {T : Type} `{Dtype T}.

(** The condition column of the table. *)
Definition rule_holds (isoform1 isoform2 : list T) (min_reads : Z) (r : rule)
    : bool :=
  let ge := fun x : T => dt_ge x min_reads in
  let lt := fun x : T => dt_lt x min_reads in
  let zero := fun x : T => dt_eq x 0 in
  match r with
  | R1 => Series.all ge isoform1 && Series.all zero isoform2
  | R2 => Series.all zero isoform1 && Series.all ge isoform2
  | R3 => Series.all ge isoform1 && Series.all ge isoform2
  | R4 => Series.any zero isoform1 || Series.any zero isoform2
  | R5 => Series.all ge isoform1 && Series.all lt isoform2
  | R6 => Series.all lt isoform1 && Series.all ge isoform2
  | R7 => Series.all ge isoform1 && Series.any lt isoform2
  | R8 => Series.any lt isoform1 && Series.all ge isoform2
  | R9a => Series.all lt isoform1 && Series.any lt isoform2
  | R9b => Series.any lt isoform1 && Series.all lt isoform2
  | R9c => Series.any lt isoform1 || Series.any lt isoform2
  | R10 => Series.any lt isoform1 || Series.any lt isoform2
  end.

(** First matching rule wins; [None] is the row "none of the above". *)
Definition first_match (isoform1 isoform2 : list T) (min_reads : Z)
    : option rule :=
  List.find (rule_holds isoform1 isoform2 min_reads) rule_table.

(** What the code returns when a given row of the table is the first to
    match. *)
Definition outcome (r : option rule)
    (isoform1 isoform2 : list T) (n_junctions min_reads : Z)
    : result (reads_out T * reads_out T * string) :=
  match r with
  | Some R1 => Ok (Kept isoform1, Kept isoform2, case1)
  | Some R2 => Ok (Kept isoform1, Kept isoform2, case2)
  | Some R3 => Ok (Kept isoform1, Kept isoform2, case3)
  | Some R4 => Ok (NoReads, NoReads, case4)
  | Some R9a => Ok (NoReads, NoReads, case9a)
  | Some R9b => Ok (NoReads, NoReads, case9b)
  | Some R10 => Ok (NoReads, NoReads, case10)
  | Some R5 =>
      _single_sample_maybe_sufficient_reads
        isoform1 isoform2 n_junctions min_reads case5 "ab"
  | Some R6 =>
      _single_sample_maybe_sufficient_reads
        isoform1 isoform2 n_junctions min_reads case6 "ab"
  | Some R7 =>
      _single_sample_maybe_sufficient_reads
        isoform1 isoform2 n_junctions min_reads case7 "ab"
  | Some R8 =>
      _single_sample_maybe_sufficient_reads
        isoform1 isoform2 n_junctions min_reads case8 "ab"
  | Some R9c =>
      _single_sample_maybe_sufficient_reads
        isoform1 isoform2 n_junctions min_reads case9 "cd"
  | None => Ok (Unknown, Unknown, case_unknown)
  end.

(** The classifier returned and kept the reads of both isoforms. *)
Definition accepted (r : result (reads_out T * reads_out T * string)) : bool :=
  match r with
  | Ok (Kept _, Kept _, _) => true
  | _ => false
  end.

End table.

(** Settles a table of equivalences about a call whose result is known. *)
Ltac settle_call :=
  repeat match goal with
         | |- _ /\ _ => split
         | |- _ <-> _ => split
         end;
  intros;
  repeat match goal with
         | H : _ /\ _ |- _ => destruct H
         | H : ex _ |- _ => destruct H
         end;
  try discriminate; try tauto; eauto.


(** Settles that a numeral is a signed 64-bit integer. *)
Ltac in_range := vm_compute; split; [discriminate | reflexivity].

(** * Properties *)

(** ** The result monad *)

Lemma bind_Ok {A B} (f : A -> result B) (a : A) : (Ok a ≫= f) = f a.
Proof. reflexivity. Qed.

Lemma bind_inv_Ok {A B} (f : A -> result B) (m : result A) (b : B) :
  (m ≫= f) = Ok b -> exists a, m = Ok a /\ f a = Ok b.
Proof. destruct m as [a|e]; [eauto | discriminate]. Qed.

(** ** 64-bit integers *)

Lemma wrap64_small (z : Z) : in_int64 z -> wrap64 z = z.
Proof.
  unfold in_int64, wrap64. intros Hz.
  rewrite Z.mod_small; lia.
Qed.

(** ** Coverage filter *)

Section coverage.

Context {T : Type} `{Dtype T}.

Lemma coverage_nil (m : Z) :
  _single_sample_check_unequal_read_coverage (@nil T) m = Raise IndexError.
Proof. reflexivity. Qed.

Lemma coverage_single (a : T) (m : Z) :
  _single_sample_check_unequal_read_coverage [a] m = Ok (Some [a]).
Proof. reflexivity. Qed.

Lemma coverage_pair (a b : T) (rest : list T) (m : Z) :
  _single_sample_check_unequal_read_coverage (a :: b :: rest) m
  = Ok (if (dt_gt a b && dt_gt a (dt_mul b m))
           || (dt_gt b a && dt_gt b (dt_mul a m))
        then None else Some (a :: b :: rest)).
Proof.
  unfold _single_sample_check_unequal_read_coverage.
  destruct (decide _) as [E|_]; [discriminate E|].
  cbn.
  destruct (dt_gt a b), (dt_gt a (dt_mul b m)), (dt_gt b a),
    (dt_gt b (dt_mul a m)); reflexivity.
Qed.

Lemma coverage_returns (isoform : list T) (m : Z) :
  isoform <> [] ->
  exists r, _single_sample_check_unequal_read_coverage isoform m = Ok r
            /\ (r = None \/ r = Some isoform).
Proof.
  destruct isoform as [|a [|b rest]]; [done | |]; intros _.
  - rewrite coverage_single. eauto.
  - rewrite coverage_pair. destruct (_ || _); eauto.
Qed.

End coverage.

Lemma coverage_pair_rejects (a b : Z) (rest : list Z) (m : Z) :
  _single_sample_check_unequal_read_coverage (a :: b :: rest) m = Ok None
  <-> (a > b /\ a > wrap64 (b * m)) \/ (b > a /\ b > wrap64 (a * m)).
Proof.
  rewrite coverage_pair. cbn [dt_gt dt_mul int64].
  destruct (((a >? b) && (a >? wrap64 (b * m)))
            || ((b >? a) && (b >? wrap64 (a * m)))) eqn:E.
  - split; [intros _; lia | reflexivity].
  - split; [discriminate | intros H; exfalso; lia].
Qed.

Lemma coverage_pair_accepts (a b : Z) (rest : list Z) (m : Z) :
  _single_sample_check_unequal_read_coverage (a :: b :: rest) m
  = Ok (Some (a :: b :: rest))
  <-> ~ ((a > b /\ a > wrap64 (b * m)) \/ (b > a /\ b > wrap64 (a * m))).
Proof.
  rewrite <- (coverage_pair_rejects a b rest m), !coverage_pair.
  destruct (_ || _); split.
  - discriminate.
  - intros H. exfalso. apply H. reflexivity.
  - intros _ H. discriminate H.
  - reflexivity.
Qed.

(** C1.  On an int64 Series the coverage filter hands a
    one-junction isoform back unchanged; on an isoform whose first two
    reads are [a] and [b] whose products with the multiplier [m] fit in
    64 bits, it returns no reads exactly when [a > b] and [a > m * b], or
    [b > a] and [b > m * a], and hands the isoform back unchanged
    otherwise. *)
Theorem coverage_filter_contract (isoform : list Z) (m : Z) :
  (length isoform = 1%nat ->
   _single_sample_check_unequal_read_coverage isoform m = Ok (Some isoform))
  /\
  (forall a b rest, isoform = a :: b :: rest ->
     in_int64 (m * a) -> in_int64 (m * b) ->
     let unequal := (a > b /\ a > m * b) \/ (b > a /\ b > m * a) in
     (_single_sample_check_unequal_read_coverage isoform m = Ok None
      <-> unequal)
     /\ (~ unequal ->
         _single_sample_check_unequal_read_coverage isoform m
         = Ok (Some isoform))).
Proof.
  split.
  - destruct isoform as [|a [|b rest]]; try discriminate.
    intros _. apply coverage_single.
  - intros a b rest -> Ha Hb unequal. subst unequal.
    rewrite coverage_pair_rejects, coverage_pair_accepts.
    rewrite (Z.mul_comm b m), (Z.mul_comm a m).
    rewrite (wrap64_small _ Ha), (wrap64_small _ Hb).
    split; [reflexivity | auto].
Qed.

Lemma coverage_filter_contract_witness :
  _single_sample_check_unequal_read_coverage [7] 10 = Ok (Some [7])
  /\ _single_sample_check_unequal_read_coverage [40; 500] 10 = Ok None
  /\ _single_sample_check_unequal_read_coverage [40; 400; 3] 10
     = Ok (Some [40; 400; 3]).
Proof.
  split; [|split].
  - apply (proj1 (coverage_filter_contract [7] 10)). reflexivity.
  - apply (proj1 (proj2 (coverage_filter_contract [40; 500] 10)
                        40 500 [] eq_refl
                        ltac:(in_range)
                        ltac:(in_range))).
    right. split; reflexivity.
  - apply (proj2 (proj2 (coverage_filter_contract [40; 400; 3] 10)
                        40 400 [3] eq_refl
                        ltac:(in_range)
                        ltac:(in_range))).
    intros [[H _]|[_ H]]; discriminate H.
Defined.

(** C1 does not extend to reads whose product with the multiplier
    overflows: with the multiplier
    10 the reads 10^18 and 10^18 + 1 are rejected, the product 10 * 10^18
    having wrapped around to a negative number, although neither read
    exceeds ten times the other. *)
Lemma coverage_filter_overflow :
  _single_sample_check_unequal_read_coverage [10 ^ 18; 10 ^ 18 + 1] 10
  = Ok None
  /\ ~ ((10 ^ 18 > 10 ^ 18 + 1 /\ 10 ^ 18 > 10 * (10 ^ 18 + 1))
        \/ (10 ^ 18 + 1 > 10 ^ 18 /\ 10 ^ 18 + 1 > 10 * 10 ^ 18)).
Proof.
  split; [vm_compute; reflexivity|].
  intros [[H _]|[_ H]]; vm_compute in H; discriminate H.
Qed.

(** ** The classifier follows the ordered table *)

Section table_facts.

Context {T : Type} `{Dtype T}.

(** [classify_covered] is the table read top to bottom. *)
Lemma classify_covered_table
    (isoform1 isoform2 : list T) (n_junctions min_reads : Z) :
  classify_covered isoform1 isoform2 n_junctions min_reads
  = outcome (first_match isoform1 isoform2 min_reads)
            isoform1 isoform2 n_junctions min_reads.
Proof.
  unfold classify_covered, first_match, rule_table, List.find, rule_holds.
  cbv zeta.
  generalize (Series.all (fun x => dt_ge x min_reads) isoform1),
             (Series.all (fun x => dt_ge x min_reads) isoform2),
             (Series.all (fun x => dt_lt x min_reads) isoform1),
             (Series.all (fun x => dt_lt x min_reads) isoform2),
             (Series.any (fun x => dt_lt x min_reads) isoform1),
             (Series.any (fun x => dt_lt x min_reads) isoform2),
             (Series.all (fun x => dt_eq x 0) isoform1),
             (Series.all (fun x => dt_eq x 0) isoform2),
             (Series.any (fun x => dt_eq x 0) isoform1),
             (Series.any (fun x => dt_eq x 0) isoform2).
  intros [] [] [] [] [] [] [] [] [] []; reflexivity.
Qed.

(** The last row of the table is never the first to match, whatever the
    dtype of the reads. *)
Lemma first_match_not_R10 (isoform1 isoform2 : list T) (min_reads : Z) :
  first_match isoform1 isoform2 min_reads <> Some R10.
Proof.
  unfold first_match, rule_table, List.find, rule_holds. cbv zeta.
  generalize (Series.all (fun x => dt_ge x min_reads) isoform1),
             (Series.all (fun x => dt_ge x min_reads) isoform2),
             (Series.all (fun x => dt_lt x min_reads) isoform1),
             (Series.all (fun x => dt_lt x min_reads) isoform2),
             (Series.any (fun x => dt_lt x min_reads) isoform1),
             (Series.any (fun x => dt_lt x min_reads) isoform2),
             (Series.all (fun x => dt_eq x 0) isoform1),
             (Series.all (fun x => dt_eq x 0) isoform2),
             (Series.any (fun x => dt_eq x 0) isoform1),
             (Series.any (fun x => dt_eq x 0) isoform2).
  intros [] [] [] [] [] [] [] [] [] []; discriminate.
Qed.

Lemma sufficient_reads_returns
    (isoform1 isoform2 : list T) (n_junctions min_reads : Z)
    (case : string) (a b : ascii) (rest : string) :
  let letters := String a (String b rest) in
  _single_sample_maybe_sufficient_reads
    isoform1 isoform2 n_junctions min_reads case letters
  = if enough_reads isoform1 isoform2 n_junctions min_reads
    then Ok (Kept isoform1, Kept isoform2,
             case ++ ", option " ++ String a EmptyString
                  ++ ": There are sufficient junction reads")
    else Ok (NoReads, NoReads,
             case ++ ", option " ++ String b EmptyString
                  ++ ": There are insufficient junction reads").
Proof. reflexivity. Qed.

Lemma classifier_covered
    (isoform1 isoform2 : list T) (n_junctions min_reads m : Z) :
  _single_sample_check_unequal_read_coverage isoform1 m = Ok (Some isoform1) ->
  _single_sample_check_unequal_read_coverage isoform2 m = Ok (Some isoform2) ->
  _single_isoform_maybe_reject isoform1 isoform2 n_junctions min_reads m
  = outcome (first_match isoform1 isoform2 min_reads)
            isoform1 isoform2 n_junctions min_reads.
Proof.
  intros H1 H2. unfold _single_isoform_maybe_reject.
  rewrite H1, bind_Ok, H2, bind_Ok. apply classify_covered_table.
Qed.

Lemma classifier_uncovered
    (isoform1 isoform2 : list T) (n_junctions min_reads m : Z) :
  isoform1 <> [] -> isoform2 <> [] ->
  _single_sample_check_unequal_read_coverage isoform1 m = Ok None
  \/ _single_sample_check_unequal_read_coverage isoform2 m = Ok None ->
  _single_isoform_maybe_reject isoform1 isoform2 n_junctions min_reads m
  = Ok (NoReads, NoReads, case0).
Proof.
  intros N1 N2 Hn. unfold _single_isoform_maybe_reject.
  destruct (coverage_returns isoform1 m N1) as (r1 & E1 & D1).
  destruct (coverage_returns isoform2 m N2) as (r2 & E2 & D2).
  rewrite E1, bind_Ok, E2, bind_Ok.
  destruct D1 as [-> | ->]; [reflexivity|].
  destruct D2 as [-> | ->]; [reflexivity|].
  destruct Hn as [Hn|Hn]; congruence.
Qed.

(** Either the coverage filter rejects, or the first matching row of the
    table decides. *)
Lemma classifier_cases
    (isoform1 isoform2 : list T) (n_junctions min_reads m : Z) :
  isoform1 <> [] -> isoform2 <> [] ->
  _single_isoform_maybe_reject isoform1 isoform2 n_junctions min_reads m
  = Ok (NoReads, NoReads, case0)
  \/ _single_isoform_maybe_reject isoform1 isoform2 n_junctions min_reads m
     = outcome (first_match isoform1 isoform2 min_reads)
               isoform1 isoform2 n_junctions min_reads.
Proof.
  intros N1 N2.
  destruct (coverage_returns isoform1 m N1) as (r1 & E1 & [-> | ->]);
    [left; apply classifier_uncovered; auto|].
  destruct (coverage_returns isoform2 m N2) as (r2 & E2 & [-> | ->]);
    [left; apply classifier_uncovered; auto|].
  right. apply classifier_covered; assumption.
Qed.

Lemma classifier_raises_on_empty
    (isoform1 isoform2 : list T) (n_junctions min_reads m : Z) :
  isoform1 = [] \/ isoform2 = [] ->
  _single_isoform_maybe_reject isoform1 isoform2 n_junctions min_reads m
  = Raise IndexError.
Proof.
  intros [-> | ->]; [reflexivity|].
  unfold _single_isoform_maybe_reject.
  destruct isoform1 as [|a [|b rest]]; [reflexivity | reflexivity |].
  rewrite coverage_pair, bind_Ok. reflexivity.
Qed.

(** What a row of the table other than the last can return. *)
Lemma outcome_labels
    (r : rule) (isoform1 isoform2 : list T) (n_junctions min_reads : Z) :
  r <> R10 ->
  exists r1 r2 label,
    outcome (Some r) isoform1 isoform2 n_junctions min_reads
    = Ok (r1, r2, label)
    /\ In label labels_0_to_9 /\ r1 <> Unknown /\ r2 <> Unknown.
Proof.
  intros N.
  destruct r; try congruence; cbn [outcome];
    rewrite ?sufficient_reads_returns;
    try destruct (enough_reads _ _ _ _);
    do 3 eexists; (split; [reflexivity|]);
    (split; [cbn; tauto | split; discriminate]).
Qed.

(** An outcome keeps both isoforms as they are, or none, or is the
    sentinel. *)
Lemma outcome_shape
    (r : option rule) (isoform1 isoform2 : list T) (n_junctions min_reads : Z)
    (r1 r2 : reads_out T) (label : string) :
  outcome r isoform1 isoform2 n_junctions min_reads = Ok (r1, r2, label) ->
  (r1 = Kept isoform1 /\ r2 = Kept isoform2)
  \/ (r1 = NoReads /\ r2 = NoReads)
  \/ (r1 = Unknown /\ r2 = Unknown /\ r = None /\ label = case_unknown).
Proof.
  destruct r as [r|]; [destruct r|]; cbn [outcome];
    rewrite ?sufficient_reads_returns;
    try destruct (enough_reads _ _ _ _);
    intros E; injection E as <- <- <-; auto 6.
Qed.

Lemma classifier_returns_nonempty
    (isoform1 isoform2 : list T) (n_junctions min_reads m : Z) :
  returns (_single_isoform_maybe_reject
             isoform1 isoform2 n_junctions min_reads m) ->
  isoform1 <> [] /\ isoform2 <> [].
Proof.
  intros [x E].
  split; intros ->;
    rewrite classifier_raises_on_empty in E by auto; discriminate E.
Qed.

Lemma outcome_returns
    (r : option rule) (isoform1 isoform2 : list T) (n_junctions min_reads : Z) :
  exists r1 r2 label,
    outcome r isoform1 isoform2 n_junctions min_reads = Ok (r1, r2, label).
Proof.
  destruct r as [r|]; [destruct r|]; cbn [outcome];
    rewrite ?sufficient_reads_returns;
    try destruct (enough_reads _ _ _ _); eauto.
Qed.

Lemma classifier_empty_or_returns
    (isoform1 isoform2 : list T) (n_junctions min_reads m : Z) :
  ((isoform1 = [] \/ isoform2 = [])
   /\ _single_isoform_maybe_reject isoform1 isoform2 n_junctions min_reads m
      = Raise IndexError)
  \/ (isoform1 <> [] /\ isoform2 <> []
      /\ exists r1 r2 label,
           _single_isoform_maybe_reject
             isoform1 isoform2 n_junctions min_reads m
           = Ok (r1, r2, label)).
Proof.
  destruct isoform1 as [|a1 l1];
    [left; split; [auto | apply classifier_raises_on_empty; auto]|].
  destruct isoform2 as [|a2 l2];
    [left; split; [auto | apply classifier_raises_on_empty; auto]|].
  right. split; [discriminate|]. split; [discriminate|].
  destruct (classifier_cases (a1 :: l1) (a2 :: l2) n_junctions min_reads m)
    as [E|E]; [discriminate.. | |]; rewrite E; [eauto|].
  apply outcome_returns.
Qed.

End table_facts.

(** ** Sample classifier on int64 reads *)

Lemma wrap64_period (z k : Z) : wrap64 (z + k * 2 ^ 64) = wrap64 z.
Proof.
  unfold wrap64. replace (z + k * 2 ^ 64 + 2 ^ 63)
    with (z + 2 ^ 63 + k * 2 ^ 64) by lia.
  rewrite Z_mod_plus_full. reflexivity.
Qed.

Lemma wrap64_congruent (z : Z) : exists k, wrap64 z = z + k * 2 ^ 64.
Proof.
  exists (- ((z + 2 ^ 63) / 2 ^ 64)). unfold wrap64.
  pose proof (Z.div_mod (z + 2 ^ 63) (2 ^ 64) ltac:(lia)). lia.
Qed.

Lemma wrap64_add (a b : Z) : wrap64 (wrap64 a + wrap64 b) = wrap64 (a + b).
Proof.
  destruct (wrap64_congruent a) as [ka ->].
  destruct (wrap64_congruent b) as [kb ->].
  replace (a + ka * 2 ^ 64 + (b + kb * 2 ^ 64))
    with (a + b + (ka + kb) * 2 ^ 64) by lia.
  apply wrap64_period.
Qed.

(** On sums that fit in 64 bits the test of the total-reads check is
    the comparison of the sums. *)
Lemma enough_reads_exact (isoform1 isoform2 : list Z)
    (n_junctions min_reads : Z) :
  in_int64 (total isoform1 + total isoform2) ->
  enough_reads isoform1 isoform2 n_junctions min_reads
  = (total isoform1 + total isoform2 >=? min_reads * n_junctions).
Proof.
  intros R. unfold enough_reads, Series.sum. cbn [dt_ge dt_add dt_sum int64].
  fold (total isoform1). fold (total isoform2).
  rewrite wrap64_add, (wrap64_small _ R). reflexivity.
Qed.

Lemma any_lt_not_all_ge (min_reads : Z) (s : list Z) :
  Series.any (fun x => dt_lt x min_reads) s
  = negb (Series.all (fun x => dt_ge x min_reads) s).
Proof.
  induction s as [|x s IH]; [reflexivity|].
  cbn. unfold Series.any, Series.all in IH. cbn in IH. rewrite IH.
  rewrite Z.geb_leb, Z.ltb_antisym. destruct (min_reads <=? x); reflexivity.
Qed.

(** On integer reads some row of the table other than the last always
    matches. *)
Lemma first_match_total (isoform1 isoform2 : list Z) (min_reads : Z) :
  exists r, first_match isoform1 isoform2 min_reads = Some r /\ r <> R10.
Proof.
  unfold first_match, rule_table, List.find, rule_holds. cbv zeta.
  rewrite !any_lt_not_all_ge.
  destruct (Series.all (fun x => dt_ge x min_reads) isoform1),
           (Series.all (fun x => dt_ge x min_reads) isoform2);
    cbn [negb andb orb];
    repeat match goal with
           | |- context [if ?c then _ else _] => destruct c
           end; eexists; (split; [reflexivity | discriminate]).
Qed.


Lemma labels_0_to_9_known (label : string) :
  In label labels_0_to_9 -> label <> case_unknown /\ label <> case10.
Proof.
  cbn. intros Hl.
  repeat (destruct Hl as [<- | Hl]; [split; discriminate|]).
  destruct Hl.
Qed.





(** C8.  Rule 10 is dead: its condition is that of rule 9c, which is
    tried first, so the table never selects it and the classifier never
    returns its label. *)
Theorem rule10_dead {T : Type} `{Dtype T}
    (isoform1 isoform2 : list T) (n_junctions min_reads m : Z) :
  rule_holds isoform1 isoform2 min_reads R10
  = rule_holds isoform1 isoform2 min_reads R9c
  /\ first_match isoform1 isoform2 min_reads <> Some R10
  /\ (forall r1 r2 label,
        _single_isoform_maybe_reject isoform1 isoform2 n_junctions min_reads m
        = Ok (r1, r2, label) ->
        label <> case10).
Proof.
  split; [reflexivity|]. split; [apply first_match_not_R10|].
  intros r1 r2 label E.
  destruct (classifier_returns_nonempty isoform1 isoform2
              n_junctions min_reads m) as [N1 N2]; [eexists; exact E|].
  destruct (classifier_cases isoform1 isoform2 n_junctions min_reads m N1 N2)
    as [E'|E']; rewrite E' in E.
  - injection E as _ _ <-. discriminate.
  - pose proof (first_match_not_R10 isoform1 isoform2 min_reads) as N.
    destruct (first_match isoform1 isoform2 min_reads) as [r|].
    + destruct (outcome_labels r isoform1 isoform2 n_junctions min_reads)
        as (r1' & r2' & label' & E'' & L & _); [congruence|].
      rewrite E'' in E. injection E as _ _ <-.
      apply labels_0_to_9_known, L.
    + injection E as _ _ <-. discriminate.
Qed.

Lemma rule10_dead_witness :
  "Case 9: Insufficient reads somehow, option d: There are insufficient junction reads"
  <> case10.
Proof.
  apply (proj2 (proj2 (rule10_dead [5; 15] [5; 12] 4 10 10))
               NoReads NoReads).
  reflexivity.
Defined.

(** C2.  On int64 reads whose total fits in 64 bits, when
    the first matching rule defers to the total-reads check, the
    classifier returns the original reads exactly when
    [sum(isoform1) + sum(isoform2) >= min_reads * n_junctions] and no
    reads otherwise; the label ends in "option a" or "option b" for
    rules 5 to 8 and in "option c" or "option d" for rule 9c, and for
    rules 5, 6, 7 and 9c it starts with the label of the rule. *)
Theorem total_reads_check
    (isoform1 isoform2 : list Z) (n_junctions min_reads m : Z) (r : rule) :
  _single_sample_check_unequal_read_coverage isoform1 m = Ok (Some isoform1) ->
  _single_sample_check_unequal_read_coverage isoform2 m = Ok (Some isoform2) ->
  first_match isoform1 isoform2 min_reads = Some r ->
  defers r = true ->
  in_int64 (total isoform1 + total isoform2) ->
  exists prefix,
    (r <> R8 -> deferring_label r = Some prefix)
    /\ (total isoform1 + total isoform2 >= min_reads * n_junctions ->
        _single_isoform_maybe_reject isoform1 isoform2 n_junctions min_reads m
        = Ok (Kept isoform1, Kept isoform2,
              prefix ++ ", option " ++ accept_letter r
                     ++ ": There are sufficient junction reads"))
    /\ (total isoform1 + total isoform2 < min_reads * n_junctions ->
        _single_isoform_maybe_reject isoform1 isoform2 n_junctions min_reads m
        = Ok (NoReads, NoReads,
              prefix ++ ", option " ++ reject_letter r
                     ++ ": There are insufficient junction reads")).
Proof.
  intros C1 C2 F D R.
  rewrite (classifier_covered _ _ _ _ _ C1 C2), F.
  destruct r; try discriminate D; cbn [outcome];
    rewrite sufficient_reads_returns, (enough_reads_exact _ _ _ _ R);
    eexists;
    (split; [intros N; first [reflexivity | exfalso; apply N; reflexivity]|]);
    (split; intros Ht;
     [ replace (_ >=? _) with true by (symmetry; rewrite Z.geb_leb; lia)
     | replace (_ >=? _) with false by (symmetry; rewrite Z.geb_leb; lia) ]);
    reflexivity.
Qed.

Lemma total_reads_check_witness :
  exists prefix,
    (R5 <> R8 -> deferring_label R5 = Some prefix)
    /\ (total [12] + total [9] >= 10 * 2 ->
        _single_isoform_maybe_reject [12] [9] 2 10 10
        = Ok (Kept [12], Kept [9],
              prefix ++ ", option " ++ accept_letter R5
                     ++ ": There are sufficient junction reads"))
    /\ (total [12] + total [9] < 10 * 2 ->
        _single_isoform_maybe_reject [12] [9] 2 10 10
        = Ok (NoReads, NoReads,
              prefix ++ ", option " ++ reject_letter R5
                     ++ ": There are insufficient junction reads")).
Proof.
  apply (total_reads_check [12] [9] 2 10 10 R5
           eq_refl eq_refl eq_refl eq_refl).
  in_range.
Defined.

(** The suffix "option a" of C2 is not that of rule 9c: these reads reach rule 9c with
    enough reads in total, and the label of the accepted sample has no
    "option a" in it. *)
Lemma rule9c_label_is_option_c :
  first_match [5; 15] [5; 15] 10 = Some R9c
  /\ total [5; 15] + total [5; 15] >= 10 * 4
  /\ exists label,
       _single_isoform_maybe_reject [5; 15] [5; 15] 4 10 10
       = Ok (Kept [5; 15], Kept [5; 15], label)
       /\ label = "Case 9: Insufficient reads somehow, option c: There are sufficient junction reads"
       /\ String.index 0 "option a" label = None.
Proof.
  split; [reflexivity|]. split; [discriminate|].
  eexists. split; [reflexivity|]. split; reflexivity.
Qed.

(** C5.  Reads for which rule 8 is the first to match (isoform1 has a
    junction under [min_reads], isoform2 has none): the classifier defers
    to the total-reads check, under the label of rule 7's wording,
    "Isoform 1 is fully covered and isoform2 is questionable". *)
Theorem rule8_label :
  first_match [5; 15] [12] 10 = Some R8
  /\ Series.any (fun x => x <? 10) [5; 15] = true
  /\ Series.all (fun x => x >=? 10) [12] = true
  /\ _single_isoform_maybe_reject [5; 15] [12] 3 10 10
     = Ok (Kept [5; 15], Kept [12],
           "Case 8: Isoform 1 is fully covered and isoform2 is questionable, option a: There are sufficient junction reads").
Proof. repeat split. Qed.

(** C10.  A two-junction isoform with zero reads on one junction and
    positive reads on the other is rejected by the coverage filter under
    every multiplier, so the classifier answers "Case 0: Unequal read
    coverage" for the sample whatever the other isoform holds, and never
    the label of rule 4. *)
Theorem zero_junction_is_unequal_coverage
    (a m : Z) (other : list Z) (n_junctions min_reads : Z) :
  a > 0 -> other <> [] ->
  forall isoform, isoform = [a; 0] \/ isoform = [0; a] ->
    _single_sample_check_unequal_read_coverage isoform m = Ok None
    /\ _single_isoform_maybe_reject isoform other n_junctions min_reads m
       = Ok (NoReads, NoReads, case0)
    /\ _single_isoform_maybe_reject other isoform n_junctions min_reads m
       = Ok (NoReads, NoReads, case0)
    /\ case0 <> case4.
Proof.
  intros Ha No isoform Hi.
  assert (_single_sample_check_unequal_read_coverage isoform m = Ok None)
    as Hc.
  { destruct Hi as [-> | ->]; apply coverage_pair_rejects;
      rewrite Z.mul_0_l; change (wrap64 0) with 0; lia. }
  assert (isoform <> []) as Ni by (destruct Hi as [-> | ->]; discriminate).
  split; [exact Hc|].
  split; [apply classifier_uncovered; auto|].
  split; [apply classifier_uncovered; auto|].
  discriminate.
Qed.

Lemma zero_junction_is_unequal_coverage_witness :
  _single_isoform_maybe_reject [0; 25] [40] 3 10 10
  = Ok (NoReads, NoReads, "Case 0: Unequal read coverage").
Proof.
  apply (zero_junction_is_unequal_coverage 25 10 [40] 3 10
           eq_refl ltac:(discriminate) [0; 25]).
  right. reflexivity.
Defined.

(** ** Illegal junctions *)

Lemma mapM_Ok_Forall2 {A B} (f : A -> result B) (l : list A) (out : list B) :
  mapM f l = Ok out -> Forall2 (fun a b => f a = Ok b) l out.
Proof.
  revert out. induction l as [|x l IH]; intros out E; cbn in E.
  - injection E as <-. constructor.
  - destruct (f x) as [y|e] eqn:Ex; [|discriminate].
    destruct (mapM f l) as [k|e] eqn:El; [|discriminate].
    injection E as <-. constructor; auto.
Qed.



Section illegal_facts.

Context {T : Type} `{Dtype T}.

(** The rows that survive are those whose illegal junction has a read
    for which [>= min_reads] is false. *)
Lemma drop_illegal_rows_spec
    (columns : list string) (rows kept : list (string * list T))
    (label : string) (min_reads : Z) :
  drop_illegal_rows columns rows label min_reads = Ok kept ->
  forall sample_id values,
    (sample_id, values) ∈ kept
    <-> ((sample_id, values) ∈ rows)
        /\ exists v, Row.get (combine columns values) label = Ok v
                     /\ dt_ge v min_reads = false.
Proof.
  revert kept. induction rows as [|[s0 r0] rows IH]; intros kept E; cbn in E.
  - injection E as <-. intros s r. split.
    + intros Hin. inversion Hin.
    + intros [Hin _]. inversion Hin.
  - destruct (Row.get (combine columns r0) label) as [v0|e] eqn:Ev;
      [|discriminate].
    destruct (drop_illegal_rows columns rows label min_reads) as [rest|e]
      eqn:Er; [|discriminate].
    cbn in E. specialize (IH rest eq_refl).
    intros s r. rewrite elem_of_cons.
    destruct (dt_ge v0 min_reads) eqn:Eg; injection E as <-.
    + rewrite IH. split; [tauto|].
      intros [[E|Hin] (v & Hv & Hlt)]; [|eauto].
      injection E as -> ->. rewrite Ev in Hv. injection Hv as ->. congruence.
    + rewrite elem_of_cons, IH. split.
      * intros [E|[Hin Hv]]; [|tauto].
        injection E as -> ->. split; [auto|]. eauto.
      * intros [[E|Hin] Hv]; [left; assumption | right; tauto].
Qed.

Lemma drop_illegal_rows_sublist
    (columns : list string) (rows kept : list (string * list T))
    (label : string) (min_reads : Z) :
  drop_illegal_rows columns rows label min_reads = Ok kept ->
  sublist kept rows.
Proof.
  revert kept. induction rows as [|[s0 r0] rows IH]; intros kept E; cbn in E.
  - injection E as <-. constructor.
  - destruct (Row.get (combine columns r0) label) as [v0|e]; [|discriminate].
    destruct (drop_illegal_rows columns rows label min_reads) as [rest|e];
      [|discriminate].
    cbn in E. specialize (IH rest eq_refl).
    destruct (dt_ge v0 min_reads); injection E as <-;
      [apply sublist_cons | apply sublist_skip]; exact IH.
Qed.

(** The samples [judged_frame] judges are those of the frame that lines
    246-248 leave. *)
Lemma judged_frame_samples
    (reads : frame T) (ids1 ids2 : list string) (illegal_ids : illegal)
    (n_junctions min_reads m : Z) (out : list (string * judged_row T)) :
  judged_frame reads ids1 ids2 illegal_ids n_junctions min_reads m = Ok out ->
  exists kept,
    without_illegal_coverage reads illegal_ids min_reads = Ok kept
    /\ map fst out = Frame.index kept.
Proof.
  unfold judged_frame. intros E.
  apply bind_inv_Ok in E as (kept & Ek & E).
  exists kept. split; [exact Ek|].
  apply mapM_Ok_Forall2 in E. clear Ek.
  unfold Frame.index, Frame.samples in *.
  induction (frame_rows kept) as [|[s r] rows IH] in out, E |- *.
  - inversion E. reflexivity.
  - cbn in E. inversion E as [|? [s' j] ? k Hx Hrest]; subst.
    cbn. rewrite (IH _ Hrest). f_equal.
    apply bind_inv_Ok in Hx as (j' & _ & Hx). injection Hx as -> _.
    reflexivity.
Qed.

End illegal_facts.


(** ** Event PSI calculator and table builder *)

Section calculator_facts.

Context {T : Type} `{Dtype T}.


(** What the sequential loop leaves in [psis]. *)
Lemma parallelize_sequential_nil
    (event_annotation : list (string * event)) (junction_reads_2d : frame T)
    (min_reads : Z) (method : string) (multiplier : Z) psis :
  _maybe_parallelize_psi event_annotation junction_reads_2d
    min_reads method multiplier 1 = Ok psis ->
  psis = [].
Proof.
  unfold _maybe_parallelize_psi. rewrite decide_True by reflexivity.
  intros E. apply bind_inv_Ok in E as (? & _ & E). injection E as <-.
  reflexivity.
Qed.


End calculator_facts.

(** C3.  One sample with 10 reads on every junction of the event: the
    classifier keeps its reads under rule 3, [_maybe_reject] hands back
    the characters of the column labels, and [_single_event_psi] returns
    [None], no PSI for the sample, where the ratio
    isoform2 / (isoform1 + isoform2) of the reduced reads is 10 / 20. *)
Theorem single_event_psi_discards_accepted_sample :
  judged_frame (Frame ["j13"; "j12"; "j23"] [("s1", [10; 10; 10])])
    ["j13"] ["j12"; "j23"] NullIllegal 3 10 10
  = Ok [("s1", JudgedRow [("j13", Some 10); ("j12", Some 10); ("j23", Some 10)]
                 "Case 3: Sufficient coverage on both isoforms")]
  /\ _maybe_reject (Frame ["j13"; "j12"; "j23"] [("s1", [10; 10; 10])])
       ["j13"] ["j12"; "j23"] NullIllegal 3 10 10
     = Ok [["j"; "j"; "j"; "C"]; ["1"; "1"; "2"; "a"];
           ["3"; "2"; "3"; "s"]]%char
  /\ _single_event_psi "event1" (Event ["j13"] ["j12"; "j23"] NullIllegal)
       (Frame ["j13"; "j12"; "j23"] [("s1", [10; 10; 10])]) 10 "mean" 10
     = Ok None.
Proof. repeat split; vm_compute; reflexivity. Qed.

(** C9.  No event yields a PSI value in any of these calls, and each
    raises.  With [n_jobs = 1] the empty concatenation is caught and the
    handler fails on [index.levels] of the read-count table; with the
    default [n_jobs = -1] the call fails in [_maybe_parallelize_psi], on
    an empty annotation and on an annotation with one event. *)
Theorem calculate_psi_empty_result :
  calculate_psi [] (Frame ["j13"] [("s1", [10]); ("s2", [0])])
    10 "mean" 10 1
  = Raise AttributeError
  /\ calculate_psi [("event1", Event ["j13"] ["j12"] NullIllegal)]
       (Frame ["j13"; "j12"] [("s1", [2; 1])]) 10 "mean" 10 1
     = Raise AttributeError
  /\ calculate_psi [] (Frame ["j13"] [("s1", [10]); ("s2", [0])])
       10 "mean" 10 (-1)
     = Raise UnboundLocalError
  /\ calculate_psi [("event1", Event ["j13"] ["j12"] NullIllegal)]
       (Frame ["j13"; "j12"] [("s1", [2; 1])]) 10 "mean" 10 (-1)
     = Raise TypeError.
Proof. repeat split; vm_compute; reflexivity. Qed.

(** The samples of the specification. *)
Example classify_12_9 :
  _single_isoform_maybe_reject [12] [9] 2 10 10
  = Ok (Kept [12], Kept [9],
        "Case 5: Isoform1 totally covered and isoform2 not, option a: There are sufficient junction reads").
Proof. reflexivity. Qed.

Example classify_12_3 :
  _single_isoform_maybe_reject [12] [3] 2 10 10
  = Ok (NoReads, NoReads,
        "Case 5: Isoform1 totally covered and isoform2 not, option b: There are insufficient junction reads").
Proof. reflexivity. Qed.

Example classify_12_0 :
  _single_isoform_maybe_reject [12] [0] 1 10 10
  = Ok (Kept [12], Kept [0], "Case 1: Perfect exclusion").
Proof. reflexivity. Qed.

Example classify_0_15 :
  _single_isoform_maybe_reject [0] [15] 2 10 10
  = Ok (Kept [0], Kept [15], "Case 2: Perfect inclusion").
Proof. reflexivity. Qed.

(** ** Event reducer *)

Section reducer_facts.

Context {T : Type} `{Dtype T}.

Lemma of_sample_cons (e : string * string * T) (reads : junction_reads T)
    (s : string) :
  Reads.of_sample (e :: reads) s
  = if decide (Reads.sample e = s)
    then Reads.value e :: Reads.of_sample reads s
    else Reads.of_sample reads s.
Proof.
  unfold Reads.of_sample. rewrite filter_cons.
  destruct (decide (Reads.sample e = s)); reflexivity.
Qed.

(** A group of [groupby(level=1)] is the sample's reads, and only the
    samples that occur have one. *)
Lemma groupby_sample_lookup (reads : junction_reads T) (s : string) :
  Reads.groupby_sample reads !! s
  = match Reads.of_sample reads s with
    | [] => None
    | x => Some x
    end.
Proof.
  induction reads as [|e reads IH]; [reflexivity|].
  rewrite of_sample_cons.
  change (Reads.groupby_sample (e :: reads))
    with (<[Reads.sample e :=
              Reads.value e
              :: default [] (Reads.groupby_sample reads !! Reads.sample e)]>
            (Reads.groupby_sample reads)).
  destruct (decide (Reads.sample e = s)) as [->|Hne].
  - rewrite lookup_insert_eq, IH.
    destruct (Reads.of_sample reads s); reflexivity.
  - rewrite lookup_insert_ne by assumption. exact IH.
Qed.

Lemma group_len_of_sample (reads : junction_reads T) (s : string) :
  Reads.group_len reads s = Z.of_nat (length (Reads.of_sample reads s)).
Proof.
  unfold Reads.group_len. rewrite groupby_sample_lookup.
  destruct (Reads.of_sample reads s); reflexivity.
Qed.

(** Filtering whole groups by their length keeps or drops all the
    reads of a sample. *)
Lemma of_sample_filter_len
    (table : junction_reads T) (n_junctions : Z)
    (reads : junction_reads T) (s : string) :
  Reads.of_sample
    (filter (fun e => Reads.group_len table (Reads.sample e) = n_junctions)
            reads) s
  = if decide (Reads.group_len table s = n_junctions)
    then Reads.of_sample reads s else [].
Proof.
  induction reads as [|e reads IH];
    [destruct (decide _); reflexivity|].
  rewrite filter_cons, of_sample_cons.
  destruct (decide (Reads.group_len table (Reads.sample e) = n_junctions))
    as [Hp|Hp].
  - rewrite of_sample_cons, IH.
    destruct (decide (Reads.sample e = s)) as [<-|_]; [|reflexivity].
    rewrite !decide_True by assumption. reflexivity.
  - rewrite IH.
    destruct (decide (Reads.sample e = s)) as [<-|_]; [|reflexivity].
    rewrite !decide_False by assumption. reflexivity.
Qed.

(** What [_filter_and_scale] holds for each sample of a table that is
    not empty. *)
Lemma filter_and_scale_lookup
    (reads : junction_reads T) (n_junctions : Z) (method : string) :
  reads <> [] ->
  exists values,
    _filter_and_scale reads n_junctions method = PerSample values
    /\ forall s,
         values !! s
         = match Reads.of_sample reads s with
           | [] => None
           | x =>
               if decide (n_junctions > 1
                          /\ Z.of_nat (length x) <> n_junctions)
               then None
               else Some (_scale x n_junctions method)
           end.
Proof.
  intros Hne. destruct reads as [|e0 reads0]; [done|].
  unfold _filter_and_scale.
  generalize (e0 :: reads0). intros reads.
  eexists. split; [reflexivity|]. intros s.
  rewrite lookup_fmap, groupby_sample_lookup.
  destruct (decide (n_junctions > 1)) as [Hn|Hn].
  - rewrite of_sample_filter_len, group_len_of_sample.
    destruct (Reads.of_sample reads s) as [|v x] eqn:Ex; [|].
    + destruct (decide _); reflexivity.
    + destruct (decide (Z.of_nat (length (v :: x)) = n_junctions)) as [El|El].
      * rewrite decide_False by tauto. reflexivity.
      * rewrite decide_True by tauto. reflexivity.
  - destruct (Reads.of_sample reads s) as [|v x] eqn:Ex; [reflexivity|].
    rewrite decide_False by tauto. reflexivity.
Qed.

(** The junctions on which a sample has an entry. *)
Lemma junctions_of_sample (reads : junction_reads T) (s j : string) :
  j ∈ map Reads.junction (filter (fun e => Reads.sample e = s) reads)
  <-> exists v, (j, s, v) ∈ reads.
Proof.
  split.
  - intros Hj. apply list_elem_of_fmap in Hj as ([[j' s'] v] & -> & Hj).
    apply list_elem_of_filter in Hj as [Hs Hj]. cbn in Hs. subst s'.
    exists v. exact Hj.
  - intros [v Hj]. apply list_elem_of_fmap. exists (j, s, v).
    split; [reflexivity|].
    apply list_elem_of_filter. split; [reflexivity|exact Hj].
Qed.

Lemma junctions_of_sample_NoDup (reads : junction_reads T) (s : string) :
  NoDup (map fst reads) ->
  NoDup (map Reads.junction (filter (fun e => Reads.sample e = s) reads)).
Proof.
  induction reads as [|[[j0 s0] v0] reads IH]; intros ND; [constructor|].
  cbn in ND. apply NoDup_cons in ND as [Hn ND].
  rewrite filter_cons. destruct (decide _) as [E|_]; [|auto].
  cbn in E. subst s0. cbn. apply NoDup_cons. split; [|auto].
  intros Hj. apply junctions_of_sample in Hj as [v Hj].
  apply Hn. apply list_elem_of_fmap. exists (j0, s, v). auto.
Qed.

Lemma of_sample_length (reads : junction_reads T) (s : string) :
  length (Reads.of_sample reads s)
  = length (map Reads.junction (filter (fun e => Reads.sample e = s) reads)).
Proof. unfold Reads.of_sample. rewrite !length_map. reflexivity. Qed.

Section complete_samples.

Variable junctions : list string.
Variable reads : junction_reads T.

Hypothesis junctions_NoDup : NoDup junctions.
Hypothesis keys_NoDup : NoDup (map fst reads).
Hypothesis junctions_known :
  forall e, e ∈ reads -> Reads.junction e ∈ junctions.

(** A sample with an entry on every junction has as many reads as
    there are junctions. *)
Lemma complete_sample_length (s : string) :
  (forall j, j ∈ junctions -> exists v, (j, s, v) ∈ reads) ->
  length (Reads.of_sample reads s) = length junctions.
Proof.
  intros Hc. rewrite of_sample_length. apply Nat.le_antisymm.
  - apply submseteq_length, NoDup_submseteq.
    + apply junctions_of_sample_NoDup, keys_NoDup.
    + intros j Hj. apply junctions_of_sample in Hj as [v Hj].
      apply (junctions_known _ Hj).
  - apply submseteq_length, NoDup_submseteq; [exact junctions_NoDup|].
    intros j Hj. apply junctions_of_sample, Hc, Hj.
Qed.

(** A sample that lacks an entry on some junction has fewer. *)
Lemma incomplete_sample_length (s j : string) :
  j ∈ junctions -> (forall v, (j, s, v) ∉ reads) ->
  (length (Reads.of_sample reads s) < length junctions)%nat.
Proof.
  intros Hj Hno. rewrite of_sample_length.
  set (js := map Reads.junction _).
  change (length (j :: js) <= length junctions)%nat.
  apply submseteq_length, NoDup_submseteq.
  - apply NoDup_cons. split.
    + intros Hin. apply junctions_of_sample in Hin as [v Hin].
      exact (Hno v Hin).
    + apply junctions_of_sample_NoDup, keys_NoDup.
  - intros j' Hj'. apply elem_of_cons in Hj' as [->|Hj']; [exact Hj|].
    apply junctions_of_sample in Hj' as [v Hj'].
    apply (junctions_known _ Hj').
Qed.

End complete_samples.

End reducer_facts.

(** On integer reads [x.min()] is the least entry. *)
Lemma int64_min_spec (x : list Z) :
  x <> [] ->
  exists z, dt_min x = Int z /\ z ∈ x /\ forall v, v ∈ x -> z <= v.
Proof.
  destruct x as [|a rest]; [done|]. intros _. cbn.
  eexists. split; [reflexivity|].
  induction rest as [|b rest IH]; cbn.
  - split; [apply list_elem_of_here|].
    intros v Hv. apply list_elem_of_singleton in Hv. lia.
  - destruct IH as [Hin Hle]. split.
    + destruct (Z.min_spec b (foldr Z.min a rest)) as [[_ ->]|[_ ->]].
      * apply list_elem_of_further, list_elem_of_here.
      * apply elem_of_cons in Hin as [->|Hin];
          [apply list_elem_of_here | do 2 apply list_elem_of_further; exact Hin].
    + intros v Hv.
      assert (foldr Z.min a rest <= v \/ v = b) as [Hm| ->]; [|lia..].
      apply elem_of_cons in Hv as [->|Hv]; [left; apply Hle, list_elem_of_here|].
      apply elem_of_cons in Hv as [->|Hv]; [right; reflexivity|].
      left. apply Hle, list_elem_of_further, Hv.
Qed.

(** On integer reads the mean is the quotient, as doubles, of the 64-bit
    sum by the junction count. *)
Lemma scale_mean (x : list Z) (n_junctions : Z) :
  _scale x n_junctions "mean"
  = Some (Float (F64.div (F64.of_Z (wrap64 (total x)))
                         (F64.of_Z n_junctions))).
Proof. unfold _scale. rewrite decide_True by reflexivity. reflexivity. Qed.

(** C6.  The event reducer returns an empty table unchanged.  On a table
    of integer reads that is not empty, whose entries are keyed by
    distinct (junction, sample) pairs over the isoform's junctions, a
    sample that lacks an entry for one of the junctions has no value in
    the result, and a sample with an entry for each has, under ["mean"],
    the quotient as doubles of the sum of its reads by the junction count
    when that sum fits in 64 bits, and under ["min"] the least of its
    reads. *)
Theorem event_reducer_postcondition
    (junctions : list string) (reads : junction_reads Z) (method : string) :
  NoDup junctions -> junctions <> [] ->
  NoDup (map fst reads) ->
  (forall e, e ∈ reads -> Reads.junction e ∈ junctions) ->
  reads <> [] ->
  let n_junctions := Z.of_nat (length junctions) in
  _filter_and_scale ([] : junction_reads Z) n_junctions method = Unchanged []
  /\ exists values,
       _filter_and_scale reads n_junctions method = PerSample values
       /\ forall s,
            ((exists j, j ∈ junctions /\ forall v, (j, s, v) ∉ reads) ->
             values !! s = None)
            /\ ((forall j, j ∈ junctions -> exists v, (j, s, v) ∈ reads) ->
                let x := Reads.of_sample reads s in
                (method = "mean" -> in_int64 (total x) ->
                 values !! s
                 = Some (Some (Float (F64.div (F64.of_Z (total x))
                                              (F64.of_Z n_junctions)))))
                /\ (method = "min" ->
                    exists z, values !! s = Some (Some (Int z))
                              /\ z ∈ x /\ forall v, v ∈ x -> z <= v)).
Proof.
  intros NDj Nj NDk Hk Nr n_junctions.
  split; [reflexivity|].
  destruct (filter_and_scale_lookup reads n_junctions method Nr)
    as (values & E & Hv).
  exists values. split; [exact E|].
  assert (n_junctions >= 1) as Hn1.
  { subst n_junctions. destruct junctions; [done|]. cbn [length]. lia. }
  intros s. rewrite Hv. split.
  - intros (j & Hj & Hno).
    pose proof (incomplete_sample_length junctions reads NDk Hk s j Hj Hno)
      as Hlt.
    destruct (Reads.of_sample reads s) as [|v x]; [reflexivity|].
    rewrite decide_True; [reflexivity|].
    subst n_junctions. cbn [length] in *. lia.
  - intros Hc x. subst x.
    pose proof (complete_sample_length junctions reads NDj NDk Hk s Hc)
      as Hlen.
    destruct (Reads.of_sample reads s) as [|v x'] eqn:Ex.
    { cbn in Hlen. subst n_junctions. lia. }
    rewrite decide_False by (subst n_junctions; lia).
    split.
    + intros -> Hr. rewrite scale_mean, (wrap64_small _ Hr). reflexivity.
    + intros ->. unfold _scale.
      rewrite decide_False by discriminate.
      rewrite decide_True by reflexivity.
      destruct (int64_min_spec (v :: x')) as (z & -> & Hz); [done|].
      exists z. auto.
Qed.

Lemma event_reducer_postcondition_witness :
  exists values,
    _filter_and_scale
      [("j12", "s1", 10); ("j23", "s1", 20); ("j12", "s2", 7)] 2 "mean"
    = PerSample values
    /\ values !! "s2" = None
    /\ values !! "s1" = Some (Some (Float (F64.of_Z 15))).
Proof.
  destruct (event_reducer_postcondition ["j12"; "j23"]
              [("j12", "s1", 10); ("j23", "s1", 20); ("j12", "s2", 7)] "mean")
    as (_ & values & E & Hv).
  - apply (bool_decide_unpack _). vm_compute. exact I.
  - discriminate.
  - apply (bool_decide_unpack _). vm_compute. exact I.
  - intros e He.
    repeat (apply elem_of_cons in He as [->|He]);
      [ apply list_elem_of_here
      | apply list_elem_of_further, list_elem_of_here
      | apply list_elem_of_here
      | inversion He ].
  - discriminate.
  - exists values. split; [exact E|]. split.
    + apply (Hv "s2"). exists "j23". split.
      * apply list_elem_of_further, list_elem_of_here.
      * intros v Hin.
        repeat (apply elem_of_cons in Hin as [Hin|Hin]; [discriminate Hin|]).
        inversion Hin.
    + apply (Hv "s1"); [|reflexivity|in_range].
      intros j Hj.
      apply elem_of_cons in Hj as [->|Hj];
        [exists 10; apply list_elem_of_here|].
      apply elem_of_cons in Hj as [->|Hj];
        [exists 20; apply list_elem_of_further, list_elem_of_here|].
      inversion Hj.
Defined.

(** Two reads of 2^62 on the junctions of one sample: their sum wraps to
    -2^63 and the mean the reducer returns is -2^62, where the sum
    divided by the junction count is 2^62. *)
Lemma event_reducer_overflow :
  _filter_and_scale [("j12", "s1", 2 ^ 62); ("j23", "s1", 2 ^ 62)] 2 "mean"
  = PerSample {[ "s1" := Some (Float (F64.of_Z (- 2 ^ 62))) ]}
  /\ total [2 ^ 62; 2 ^ 62] / 2 = 2 ^ 62
  /\ F64.of_Z (- 2 ^ 62) <> F64.of_Z (2 ^ 62).
Proof.
  split; [vm_compute; reflexivity|].
  split; [reflexivity | vm_compute; discriminate].
Qed.

(** The reductions of the reads [10, 20] of one sample: 15.0 and 10. *)
Example reduce_mean_10_20 :
  _filter_and_scale [("j12", "s1", 10); ("j23", "s1", 20)] 2 "mean"
  = PerSample {[ "s1" := Some (Float (F64.of_Z 15)) ]}.
Proof. vm_compute. reflexivity. Qed.

Example reduce_min_10_20 :
  _filter_and_scale [("j12", "s1", 10); ("j23", "s1", 20)] 2 "min"
  = PerSample {[ "s1" := Some (Int 10) ]}.
Proof. vm_compute. reflexivity. Qed.

(** The mean of [1, 1, 2] is the double nearest to 4/3. *)
Example reduce_mean_1_1_2 :
  _filter_and_scale
    [("j12", "s1", 1); ("j23", "s1", 1); ("j34", "s1", 2)] 3 "mean"
  = PerSample {[ "s1" := Some (Float (S754_finite false 6004799503160661
                                                  (-52))) ]}.
Proof. vm_compute. reflexivity. Qed.

Example reduce_drops_incomplete :
  _filter_and_scale
    [("j12", "s1", 10); ("j23", "s1", 20); ("j12", "s2", 7)] 2 "min"
  = PerSample {[ "s1" := Some (Int 10) ]}.
Proof. vm_compute. reflexivity. Qed.

(** * Further properties *)

(** ** Coverage filter *)

(** X1.  The coverage filter raises [IndexError] on an isoform without
    junctions, and on any other isoform it returns, either [None] or the
    isoform it was given. *)
Theorem coverage_filter_total {T : Type} `{Dtype T}
    (isoform : list T) (m : Z) :
  (_single_sample_check_unequal_read_coverage isoform m = Raise IndexError
   <-> isoform = [])
  /\ (isoform <> [] ->
      _single_sample_check_unequal_read_coverage isoform m = Ok None
      \/ _single_sample_check_unequal_read_coverage isoform m
         = Ok (Some isoform)).
Proof.
  split.
  - split; [|intros ->; reflexivity].
    destruct isoform as [|a l]; [reflexivity|]. intros E.
    destruct (coverage_returns (a :: l) m) as (r & Er & _); [discriminate|].
    rewrite Er in E. discriminate E.
  - intros N. destruct (coverage_returns isoform m N) as (r & E & [-> | ->]);
      auto.
Qed.

Lemma coverage_filter_total_witness :
  _single_sample_check_unequal_read_coverage [3; 50; 7] 10 = Ok None
  \/ _single_sample_check_unequal_read_coverage [3; 50; 7] 10
     = Ok (Some [3; 50; 7]).
Proof.
  apply (proj2 (coverage_filter_total [3; 50; 7] 10)). discriminate.
Defined.

(** X2.  Only the first two junctions are compared: an isoform of three
    or more junctions is rejected exactly when its first two alone are,
    whatever the reads on the others. *)
Theorem coverage_filter_first_two {T : Type} `{Dtype T}
    (a b : T) (rest : list T) (m : Z) :
  _single_sample_check_unequal_read_coverage (a :: b :: rest) m = Ok None
  <-> _single_sample_check_unequal_read_coverage [a; b] m = Ok None.
Proof. rewrite !coverage_pair. destruct (_ || _); split; done. Qed.

Lemma coverage_filter_first_two_witness :
  _single_sample_check_unequal_read_coverage [40; 500; 450; 480] 10 = Ok None.
Proof.
  apply (proj2 (coverage_filter_first_two 40 500 [450; 480] 10)).
  reflexivity.
Defined.

(** X3.  The verdict does not depend on the order of the two junctions. *)
Theorem coverage_filter_symmetric {T : Type} `{Dtype T} (a b : T) (m : Z) :
  _single_sample_check_unequal_read_coverage [a; b] m = Ok None
  <-> _single_sample_check_unequal_read_coverage [b; a] m = Ok None.
Proof.
  rewrite !coverage_pair.
  rewrite (orb_comm (dt_gt a b && dt_gt a (dt_mul b m))).
  destruct (_ || _); split; done.
Qed.

Lemma coverage_filter_symmetric_witness :
  _single_sample_check_unequal_read_coverage [500; 40] 10 = Ok None.
Proof.
  apply (proj1 (coverage_filter_symmetric 40 500 10)). reflexivity.
Defined.

(** X4.  On int64 reads that are not negative, with a multiplier of at
    least 1 whose products with the first two reads fit in 64 bits, the
    isoform is rejected exactly when the larger of its first two reads
    exceeds the multiplier times the smaller. *)
Theorem coverage_filter_max_min (a b : Z) (rest : list Z) (m : Z) :
  1 <= m -> 0 <= a -> 0 <= b ->
  in_int64 (a * m) -> in_int64 (b * m) ->
  (_single_sample_check_unequal_read_coverage (a :: b :: rest) m = Ok None
   <-> Z.max a b > m * Z.min a b).
Proof.
  intros Hm Ha Hb Ra Rb. rewrite coverage_pair_rejects.
  rewrite (wrap64_small _ Ra), (wrap64_small _ Rb).
  destruct (Z.max_spec a b) as [[Hlt ->]|[Hle ->]];
    destruct (Z.min_spec a b) as [[Hlt' ->]|[Hle' ->]]; try lia; nia.
Qed.

Lemma coverage_filter_max_min_witness :
  _single_sample_check_unequal_read_coverage [40; 500] 10 = Ok None.
Proof.
  apply (proj2 (coverage_filter_max_min 40 500 [] 10
                  ltac:(discriminate) ltac:(discriminate)
                  ltac:(discriminate) ltac:(in_range) ltac:(in_range))).
  reflexivity.
Defined.

(** X5.  On int64 reads that are not negative, an isoform that passes
    under one multiplier passes under every larger one, as long as the
    products of the first two reads with both multipliers fit in 64
    bits. *)
Theorem coverage_filter_monotone (a b : Z) (rest : list Z) (m m' : Z) :
  0 <= a -> 0 <= b -> m <= m' ->
  in_int64 (a * m) -> in_int64 (b * m) ->
  in_int64 (a * m') -> in_int64 (b * m') ->
  _single_sample_check_unequal_read_coverage (a :: b :: rest) m
  = Ok (Some (a :: b :: rest)) ->
  _single_sample_check_unequal_read_coverage (a :: b :: rest) m'
  = Ok (Some (a :: b :: rest)).
Proof.
  intros Ha Hb Hm Ra Rb Ra' Rb'. rewrite !coverage_pair_accepts.
  rewrite (wrap64_small _ Ra), (wrap64_small _ Rb),
    (wrap64_small _ Ra'), (wrap64_small _ Rb').
  intros Hacc N. apply Hacc. nia.
Qed.

Lemma coverage_filter_monotone_witness :
  _single_sample_check_unequal_read_coverage [40; 300] 20
  = Ok (Some [40; 300]).
Proof.
  apply (coverage_filter_monotone 40 300 [] 10 20
           ltac:(discriminate) ltac:(discriminate) ltac:(discriminate)
           ltac:(in_range) ltac:(in_range) ltac:(in_range) ltac:(in_range)).
  reflexivity.
Defined.

(** An overflowing product breaks the monotonicity: the reads 2 * 10^18
    and 4 * 10^18 pass under the multiplier 2 and are rejected under the
    multiplier 5. *)
Example coverage_not_monotone_on_overflow :
  _single_sample_check_unequal_read_coverage [2 * 10 ^ 18; 4 * 10 ^ 18] 2
  = Ok (Some [2 * 10 ^ 18; 4 * 10 ^ 18])
  /\ _single_sample_check_unequal_read_coverage [2 * 10 ^ 18; 4 * 10 ^ 18] 5
     = Ok None.
Proof. split; vm_compute; reflexivity. Qed.

(** ** Total-reads check *)

(** X6.  The total-reads check reads one letter of [letters]: the first
    when the reads suffice, the second when they do not.  It returns
    exactly when that letter exists and raises [IndexError] otherwise, so
    a one-letter [letters] fails only on samples that are rejected. *)
Theorem sufficient_reads_letters {T : Type} `{Dtype T}
    (isoform1 isoform2 : list T) (n_junctions min_reads : Z)
    (case letters : string) :
  let call := _single_sample_maybe_sufficient_reads
                isoform1 isoform2 n_junctions min_reads case letters in
  let enough :=
    enough_reads isoform1 isoform2 n_junctions min_reads = true in
  (enough -> (returns call <-> (1 <= String.length letters)%nat))
  /\ (~ enough -> (returns call <-> (2 <= String.length letters)%nat))
  /\ (~ returns call -> call = Raise IndexError).
Proof.
  intros call enough. subst call enough.
  unfold _single_sample_maybe_sufficient_reads, returns.
  destruct (enough_reads isoform1 isoform2 n_junctions min_reads);
    (split; [|split]); try (intros E; exfalso; congruence).
  - intros _. destruct letters as [|a rest]; cbn.
    + split; [intros [? E]; discriminate E | lia].
    + split; [lia | eauto].
  - destruct letters as [|a rest]; cbn; [reflexivity|].
    intros N. exfalso. eauto.
  - intros _. destruct letters as [|a [|b rest]]; cbn.
    + split; [intros [? E]; discriminate E | lia].
    + split; [intros [? E]; discriminate E | lia].
    + split; [lia | eauto].
  - destruct letters as [|a [|b rest]]; cbn; [reflexivity..|].
    intros N. exfalso. eauto.
Qed.

Lemma sufficient_reads_letters_witness :
  returns (_single_sample_maybe_sufficient_reads [12] [9] 2 10 "Case" "a")
  /\ _single_sample_maybe_sufficient_reads [12] [3] 2 10 "Case" "a"
     = Raise IndexError.
Proof.
  split.
  - apply (proj1 (sufficient_reads_letters [12] [9] 2 10 "Case" "a")).
    + reflexivity.
    + apply le_n.
  - apply (proj2 (proj2 (sufficient_reads_letters [12] [3] 2 10 "Case" "a"))).
    intros [x E]. discriminate E.
Defined.

(** ** Sample classifier *)

(** X7.  The classifier raises [IndexError] exactly when one of the two
    isoforms has no junction, and returns otherwise. *)
Theorem classifier_raises_iff_empty {T : Type} `{Dtype T}
    (isoform1 isoform2 : list T) (n_junctions min_reads m : Z) :
  (_single_isoform_maybe_reject isoform1 isoform2 n_junctions min_reads m
   = Raise IndexError
   <-> isoform1 = [] \/ isoform2 = [])
  /\ (returns (_single_isoform_maybe_reject
                 isoform1 isoform2 n_junctions min_reads m)
      <-> isoform1 <> [] /\ isoform2 <> []).
Proof.
  destruct (classifier_empty_or_returns isoform1 isoform2
              n_junctions min_reads m)
    as [[He E] | (N1 & N2 & r1 & r2 & label & E)]; rewrite E.
  - split; split; try tauto; try discriminate.
    intros [x Ex]. discriminate Ex.
  - split; split; try tauto; try discriminate.
    intros _. eexists. reflexivity.
Qed.

Lemma classifier_raises_iff_empty_witness :
  _single_isoform_maybe_reject [12; 14] [] 2 10 10 = Raise IndexError.
Proof.
  apply (proj1 (classifier_raises_iff_empty [12; 14] [] 2 10 10)).
  right. reflexivity.
Defined.

(** X8.  The classifier never alters reads and never treats the two
    isoforms differently: what it returns is both isoforms as they were
    given, or [None] for both, or, under the label "Case ???", the
    string '???' for both. *)
Theorem classifier_all_or_nothing {T : Type} `{Dtype T}
    (isoform1 isoform2 : list T) (n_junctions min_reads m : Z)
    (r1 r2 : reads_out T) (label : string) :
  _single_isoform_maybe_reject isoform1 isoform2 n_junctions min_reads m
  = Ok (r1, r2, label) ->
  (r1 = Kept isoform1 /\ r2 = Kept isoform2)
  \/ (r1 = NoReads /\ r2 = NoReads)
  \/ (r1 = Unknown /\ r2 = Unknown /\ label = case_unknown).
Proof.
  intros E.
  destruct (classifier_returns_nonempty isoform1 isoform2
              n_junctions min_reads m) as [N1 N2]; [eexists; exact E|].
  destruct (classifier_cases isoform1 isoform2 n_junctions min_reads m N1 N2)
    as [E'|E']; rewrite E' in E.
  - injection E as <- <- <-. auto.
  - apply outcome_shape in E. tauto.
Qed.

Lemma classifier_all_or_nothing_witness :
  (@Unknown spec_float = Kept [S754_nan] /\ @Unknown spec_float = Kept [S754_nan])
  \/ (@Unknown spec_float = NoReads /\ @Unknown spec_float = NoReads)
  \/ (@Unknown spec_float = Unknown /\ @Unknown spec_float = Unknown
      /\ "Case ???" = case_unknown).
Proof.
  apply (classifier_all_or_nothing [S754_nan] [S754_nan] 2 10 10
           Unknown Unknown "Case ???").
  vm_compute. reflexivity.
Defined.

Lemma accepted_outcome {T : Type} `{Dtype T}
    (r : rule) (isoform1 isoform2 : list T) (n_junctions min_reads : Z) :
  accepted (outcome (Some r) isoform1 isoform2 n_junctions min_reads)
  = match r with
    | R1 | R2 | R3 => true
    | R4 | R9a | R9b | R10 => false
    | _ => enough_reads isoform1 isoform2 n_junctions min_reads
    end.
Proof.
  destruct r; cbn [outcome]; rewrite ?sufficient_reads_returns;
    try destruct (enough_reads _ _ _ _); reflexivity.
Qed.

Lemma enough_reads_swap (isoform1 isoform2 : list Z)
    (n_junctions min_reads : Z) :
  enough_reads isoform2 isoform1 n_junctions min_reads
  = enough_reads isoform1 isoform2 n_junctions min_reads.
Proof.
  unfold enough_reads. cbn [dt_add int64]. rewrite Z.add_comm. reflexivity.
Qed.

Lemma accepted_outcome_swap
    (isoform1 isoform2 : list Z) (n_junctions min_reads : Z) :
  accepted (outcome (first_match isoform1 isoform2 min_reads)
                    isoform1 isoform2 n_junctions min_reads)
  = accepted (outcome (first_match isoform2 isoform1 min_reads)
                      isoform2 isoform1 n_junctions min_reads).
Proof.
  pose proof (fun r => accepted_outcome r isoform1 isoform2
                         n_junctions min_reads) as A12.
  pose proof (fun r => accepted_outcome r isoform2 isoform1
                         n_junctions min_reads) as A21.
  cbv beta in A12, A21.
  rewrite enough_reads_swap in A21.
  unfold first_match, rule_table, List.find, rule_holds. cbv zeta.
  generalize dependent (enough_reads isoform1 isoform2 n_junctions min_reads).
  intros enough A12 A21.
  generalize (Series.all (fun x : Z => dt_ge x min_reads) isoform1),
             (Series.all (fun x : Z => dt_ge x min_reads) isoform2),
             (Series.all (fun x : Z => dt_lt x min_reads) isoform1),
             (Series.all (fun x : Z => dt_lt x min_reads) isoform2),
             (Series.any (fun x : Z => dt_lt x min_reads) isoform1),
             (Series.any (fun x : Z => dt_lt x min_reads) isoform2),
             (Series.all (fun x : Z => dt_eq x 0) isoform1),
             (Series.all (fun x : Z => dt_eq x 0) isoform2),
             (Series.any (fun x : Z => dt_eq x 0) isoform1),
             (Series.any (fun x : Z => dt_eq x 0) isoform2).
  intros [] [] [] [] [] [] [] [] [] []; cbn [andb orb];
    rewrite ?A12, ?A21; reflexivity.
Qed.

(** X9.  On int64 reads, whether a sample is accepted does not depend on
    which isoform is called isoform1: swapping the two isoforms gives the
    same verdict. *)
Theorem classifier_verdict_symmetric
    (isoform1 isoform2 : list Z) (n_junctions min_reads m : Z) :
  accepted (_single_isoform_maybe_reject
              isoform1 isoform2 n_junctions min_reads m)
  = accepted (_single_isoform_maybe_reject
                isoform2 isoform1 n_junctions min_reads m).
Proof.
  destruct isoform1 as [|a1 l1].
  { rewrite !classifier_raises_on_empty by auto. reflexivity. }
  destruct isoform2 as [|a2 l2].
  { rewrite !classifier_raises_on_empty by auto. reflexivity. }
  destruct (coverage_returns (a1 :: l1) m) as (c1 & E1 & [-> | ->]);
    [discriminate | |].
  { rewrite !classifier_uncovered by (auto; discriminate). reflexivity. }
  destruct (coverage_returns (a2 :: l2) m) as (c2 & E2 & [-> | ->]);
    [discriminate | |].
  { rewrite !classifier_uncovered by (auto; discriminate). reflexivity. }
  rewrite !classifier_covered by assumption.
  apply accepted_outcome_swap.
Qed.

Lemma all_ge_Forall (min_reads : Z) (s : list Z) :
  Series.all (fun x : Z => dt_ge x min_reads) s = true
  <-> Forall (fun x => min_reads <= x) s.
Proof.
  unfold Series.all. rewrite forallb_forall, Forall_forall.
  cbn [dt_ge int64].
  split; intros Hall x Hx.
  - apply list_elem_of_In, Hall in Hx. rewrite Z.geb_leb in Hx.
    apply Z.leb_le, Hx.
  - apply list_elem_of_In, Hall in Hx. rewrite Z.geb_leb. apply Z.leb_le, Hx.
Qed.

Lemma all_lt_Forall (min_reads : Z) (s : list Z) :
  Series.all (fun x : Z => dt_lt x min_reads) s = true
  <-> Forall (fun x => x < min_reads) s.
Proof.
  unfold Series.all. rewrite forallb_forall, Forall_forall.
  cbn [dt_lt int64].
  split; intros Hall x Hx.
  - apply list_elem_of_In, Hall in Hx. apply Z.ltb_lt, Hx.
  - apply list_elem_of_In, Hall in Hx. apply Z.ltb_lt, Hx.
Qed.

Lemma any_zero_elem (s : list Z) :
  Series.any (fun x : Z => dt_eq x 0) s = true <-> 0 ∈ s.
Proof.
  unfold Series.any. rewrite existsb_exists. cbn [dt_eq int64]. split.
  - intros (x & Hx & E). apply Z.eqb_eq in E. subst x.
    apply list_elem_of_In, Hx.
  - intros H0. exists 0. split; [apply list_elem_of_In, H0 | reflexivity].
Qed.

Lemma all_ge_not_zero (min_reads : Z) (s : list Z) :
  0 < min_reads -> 0 ∈ s ->
  Series.all (fun x : Z => dt_ge x min_reads) s = false.
Proof.
  intros Hm H0.
  destruct (Series.all (fun x : Z => dt_ge x min_reads) s) eqn:E;
    [|reflexivity].
  apply all_ge_Forall in E. rewrite Forall_forall in E.
  specialize (E 0 H0). lia.
Qed.

Lemma all_lt_not_all_ge (min_reads : Z) (s : list Z) :
  s <> [] ->
  Series.all (fun x : Z => dt_lt x min_reads) s = true ->
  Series.all (fun x : Z => dt_ge x min_reads) s = false.
Proof.
  destruct s as [|x s]; [done|]. intros _ Hall. cbn in *.
  apply andb_prop in Hall as [Hx _]. apply Z.ltb_lt in Hx.
  rewrite Z.geb_leb. replace (min_reads <=? x) with false; [reflexivity|].
  symmetry. apply Z.leb_gt, Hx.
Qed.

(** What the table selects once the coverage filter has let both
    isoforms through, as a fact about an [Ok] result. *)
Lemma classifier_Ok_inv
    (isoform1 isoform2 : list Z) (n_junctions min_reads m : Z)
    (r1 r2 : reads_out Z) (label : string) :
  _single_isoform_maybe_reject isoform1 isoform2 n_junctions min_reads m
  = Ok (r1, r2, label) ->
  isoform1 <> [] /\ isoform2 <> []
  /\ ((r1 = NoReads /\ r2 = NoReads /\ label = case0
       /\ (_single_sample_check_unequal_read_coverage isoform1 m = Ok None
           \/ _single_sample_check_unequal_read_coverage isoform2 m
              = Ok None))
      \/ (_single_sample_check_unequal_read_coverage isoform1 m
          = Ok (Some isoform1)
          /\ _single_sample_check_unequal_read_coverage isoform2 m
             = Ok (Some isoform2)
          /\ exists r, first_match isoform1 isoform2 min_reads = Some r
                       /\ r <> R10
                       /\ outcome (Some r) isoform1 isoform2
                            n_junctions min_reads
                          = Ok (r1, r2, label))).
Proof.
  intros E.
  destruct (classifier_returns_nonempty isoform1 isoform2
              n_junctions min_reads m) as [N1 N2]; [eexists; exact E|].
  split; [exact N1|]. split; [exact N2|].
  destruct (coverage_returns isoform1 m N1) as (c1 & E1 & [-> | ->]).
  { left. rewrite classifier_uncovered in E by auto.
    injection E as <- <- <-. auto. }
  destruct (coverage_returns isoform2 m N2) as (c2 & E2 & [-> | ->]).
  { left. rewrite classifier_uncovered in E by auto.
    injection E as <- <- <-. auto. }
  right. split; [exact E1|]. split; [exact E2|].
  rewrite classifier_covered in E by assumption.
  destruct (first_match_total isoform1 isoform2 min_reads) as (r & F & N).
  exists r. rewrite F in E. auto.
Qed.

(** X10.  With a positive [min_reads], a sample with zero reads on some
    junction is accepted only as a perfect exclusion or a perfect
    inclusion (rules 1 and 2). *)
Theorem zero_junction_accepted_only_as_perfect
    (isoform1 isoform2 : list Z) (n_junctions min_reads m : Z)
    (r1 r2 : list Z) (label : string) :
  0 < min_reads ->
  0 ∈ isoform1 \/ 0 ∈ isoform2 ->
  _single_isoform_maybe_reject isoform1 isoform2 n_junctions min_reads m
  = Ok (Kept r1, Kept r2, label) ->
  label = case1 \/ label = case2.
Proof.
  intros Hm H0 E.
  apply classifier_Ok_inv in E
    as (_ & _ & [(E & _)|(_ & _ & r & F & _ & O)]); [discriminate E|].
  assert (Series.all (fun x : Z => dt_ge x min_reads) isoform1
          && Series.all (fun x : Z => dt_ge x min_reads) isoform2 = false)
    as G.
  { destruct H0 as [H0|H0]; rewrite (all_ge_not_zero _ _ Hm H0);
      [reflexivity | apply andb_false_r]. }
  assert (Series.any (fun x : Z => dt_eq x 0) isoform1
          || Series.any (fun x : Z => dt_eq x 0) isoform2 = true) as Z0.
  { destruct H0 as [H0|H0]; apply any_zero_elem in H0; rewrite H0;
      [reflexivity | apply orb_true_r]. }
  unfold first_match, rule_table, List.find, rule_holds in F. cbv zeta in F.
  rewrite G, Z0 in F.
  destruct (Series.all _ isoform1 && Series.all _ isoform2) in F.
  { injection F as <-. injection O as _ _ <-. auto. }
  destruct (Series.all _ isoform1 && Series.all _ isoform2) in F.
  { injection F as <-. injection O as _ _ <-. auto. }
  injection F as <-. discriminate O.
Qed.

Lemma zero_junction_accepted_only_as_perfect_witness :
  "Case 2: Perfect inclusion" = case1 \/ "Case 2: Perfect inclusion" = case2.
Proof.
  apply (zero_junction_accepted_only_as_perfect [0] [15; 20] 3 10 10
           [0] [15; 20] "Case 2: Perfect inclusion" eq_refl).
  - left. apply list_elem_of_here.
  - reflexivity.
Defined.

(** X11.  A sample whose every junction, on both isoforms, has fewer
    than [min_reads] reads is rejected. *)
Theorem all_below_min_rejected
    (isoform1 isoform2 : list Z) (n_junctions min_reads m : Z) :
  isoform1 <> [] -> isoform2 <> [] ->
  Forall (fun x => x < min_reads) isoform1 ->
  Forall (fun x => x < min_reads) isoform2 ->
  exists label,
    _single_isoform_maybe_reject isoform1 isoform2 n_junctions min_reads m
    = Ok (NoReads, NoReads, label).
Proof.
  intros N1 N2 L1 L2.
  apply all_lt_Forall in L1, L2.
  pose proof (all_lt_not_all_ge _ _ N1 L1) as G1.
  pose proof (all_lt_not_all_ge _ _ N2 L2) as G2.
  destruct (classifier_cases isoform1 isoform2 n_junctions min_reads m N1 N2)
    as [E|E]; rewrite E; [eauto|].
  unfold first_match, rule_table, List.find, rule_holds. cbv zeta.
  rewrite !any_lt_not_all_ge, L1, L2, G1, G2. cbn [andb orb negb].
  rewrite !andb_false_r.
  destruct (Series.any _ isoform1 || Series.any _ isoform2);
    cbn [outcome]; eauto.
Qed.

Lemma all_below_min_rejected_witness :
  exists label,
    _single_isoform_maybe_reject [4] [9; 7] 3 10 10
    = Ok (NoReads, NoReads, label).
Proof.
  apply (all_below_min_rejected [4] [9; 7] 3 10 10);
    try discriminate; repeat constructor.
Defined.

Lemma mixed_has_two (min_reads : Z) (s : list Z) :
  Series.all (fun x : Z => dt_ge x min_reads) s = false ->
  Series.all (fun x : Z => dt_lt x min_reads) s = false ->
  (2 <= length s)%nat.
Proof.
  destruct s as [|x [|y s]]; cbn; [discriminate | | lia].
  rewrite !andb_true_r, Z.geb_leb, Z.ltb_antisym.
  destruct (min_reads <=? x); discriminate.
Qed.

Lemma first_match_R9c (isoform1 isoform2 : list Z) (min_reads : Z) :
  first_match isoform1 isoform2 min_reads = Some R9c ->
  Series.all (fun x : Z => dt_ge x min_reads) isoform1 = false
  /\ Series.all (fun x : Z => dt_lt x min_reads) isoform1 = false
  /\ Series.all (fun x : Z => dt_ge x min_reads) isoform2 = false
  /\ Series.all (fun x : Z => dt_lt x min_reads) isoform2 = false.
Proof.
  unfold first_match, rule_table, List.find, rule_holds. cbv zeta.
  rewrite !any_lt_not_all_ge.
  destruct (Series.all (fun x : Z => dt_ge x min_reads) isoform1),
           (Series.all (fun x : Z => dt_ge x min_reads) isoform2),
           (Series.all (fun x : Z => dt_lt x min_reads) isoform1),
           (Series.all (fun x : Z => dt_lt x min_reads) isoform2),
           (Series.all (fun x : Z => dt_eq x 0) isoform1),
           (Series.all (fun x : Z => dt_eq x 0) isoform2),
           (Series.any (fun x : Z => dt_eq x 0) isoform1),
           (Series.any (fun x : Z => dt_eq x 0) isoform2);
    cbn [andb orb negb]; intros F; try discriminate F; auto.
Qed.

(** X12.  On int64 reads, rule 9c ("Insufficient reads somehow", options
    c and d) fires only when each isoform has a junction under
    [min_reads] and a junction at or above it, so only on isoforms of two
    or more junctions each; an event with a one-junction isoform never
    gets that label. *)
Theorem rule9c_needs_two_junctions_each
    (isoform1 isoform2 : list Z) (n_junctions min_reads m : Z)
    (r1 r2 : reads_out Z) (label : string) :
  _single_isoform_maybe_reject isoform1 isoform2 n_junctions min_reads m
  = Ok (r1, r2, label) ->
  label = case9 ++ ", option c: There are sufficient junction reads"
  \/ label = case9 ++ ", option d: There are insufficient junction reads" ->
  (2 <= length isoform1)%nat /\ (2 <= length isoform2)%nat.
Proof.
  intros E L.
  apply classifier_Ok_inv in E
    as (_ & _ & [(_ & _ & -> & _)|(_ & _ & r & F & _ & O)]).
  { destruct L as [L|L]; discriminate L. }
  assert (r = R9c) as ->.
  { destruct r; try reflexivity; cbn [outcome] in O;
      rewrite ?sufficient_reads_returns in O;
      try destruct (enough_reads _ _ _ _) in O;
      injection O as _ _ <-; destruct L as [L|L]; discriminate L. }
  apply first_match_R9c in F as (G1 & L1 & G2 & L2).
  split; eapply mixed_has_two; eassumption.
Qed.

Lemma rule9c_needs_two_junctions_each_witness :
  (2 <= length [5; 15])%nat /\ (2 <= length [5; 12])%nat.
Proof.
  apply (rule9c_needs_two_junctions_each [5; 15] [5; 12] 4 10 10
           NoReads NoReads
           "Case 9: Insufficient reads somehow, option d: There are insufficient junction reads"
           eq_refl).
  right. reflexivity.
Defined.

(** On float64 reads a NaN is neither under [min_reads] nor at or above
    it, and rule 9c fires on one-junction isoforms. *)
Example rule9c_on_nan_reads :
  _single_isoform_maybe_reject [F64.of_Z 5] [F64.nan] 2 10 10
  = Ok (NoReads, NoReads,
        "Case 9: Insufficient reads somehow, option d: There are insufficient junction reads").
Proof. vm_compute. reflexivity. Qed.

Lemma all_ge_not_all_zero (min_reads : Z) (s : list Z) :
  0 < min_reads -> s <> [] ->
  Series.all (fun x : Z => dt_ge x min_reads) s = true ->
  Series.all (fun x : Z => dt_eq x 0) s = false.
Proof.
  destruct s as [|x s]; [done|]. intros Hm _ Hall. cbn in *.
  apply andb_prop in Hall as [Hx _]. rewrite Z.geb_leb in Hx.
  apply Z.leb_le in Hx.
  replace (x =? 0) with false; [reflexivity|].
  symmetry. apply Z.eqb_neq. lia.
Qed.

(** X13.  With a positive [min_reads], the classifier answers "Case 3:
    Sufficient coverage on both isoforms" exactly when both isoforms
    pass the coverage filter and every junction of both has at least
    [min_reads] reads; it then keeps the reads. *)
Theorem case3_iff_fully_covered
    (isoform1 isoform2 : list Z) (n_junctions min_reads m : Z) :
  0 < min_reads ->
  ((exists r1 r2,
      _single_isoform_maybe_reject isoform1 isoform2 n_junctions min_reads m
      = Ok (r1, r2, case3))
   <-> (_single_sample_check_unequal_read_coverage isoform1 m
        = Ok (Some isoform1)
        /\ _single_sample_check_unequal_read_coverage isoform2 m
           = Ok (Some isoform2)
        /\ Forall (fun x => min_reads <= x) isoform1
        /\ Forall (fun x => min_reads <= x) isoform2))
  /\ (forall r1 r2,
        _single_isoform_maybe_reject isoform1 isoform2 n_junctions min_reads m
        = Ok (r1, r2, case3) ->
        r1 = Kept isoform1 /\ r2 = Kept isoform2).
Proof.
  intros Hm.
  assert (forall r1 r2,
            _single_isoform_maybe_reject
              isoform1 isoform2 n_junctions min_reads m
            = Ok (r1, r2, case3) ->
            _single_sample_check_unequal_read_coverage isoform1 m
            = Ok (Some isoform1)
            /\ _single_sample_check_unequal_read_coverage isoform2 m
               = Ok (Some isoform2)
            /\ first_match isoform1 isoform2 min_reads = Some R3
            /\ r1 = Kept isoform1 /\ r2 = Kept isoform2) as Inv.
  { intros r1 r2 E.
    apply classifier_Ok_inv in E
      as (_ & _ & [(_ & _ & L & _)|(C1 & C2 & r & F & _ & O)]);
      [discriminate L|].
    assert (r = R3) as ->.
    { destruct r; try reflexivity; cbn [outcome] in O;
        rewrite ?sufficient_reads_returns in O;
        try destruct (enough_reads _ _ _ _) in O;
        injection O as _ _ L; discriminate L. }
    injection O as <- <-. auto. }
  split; [split|].
  - intros (r1 & r2 & E). apply Inv in E as (C1 & C2 & F & _).
    split; [exact C1|]. split; [exact C2|].
    unfold first_match, rule_table, List.find, rule_holds in F.
    cbv zeta in F.
    destruct (Series.all _ isoform1 && Series.all _ isoform2) in F;
      [discriminate F|].
    destruct (Series.all _ isoform1 && Series.all _ isoform2) in F;
      [discriminate F|].
    destruct (Series.all (fun x : Z => dt_ge x min_reads) isoform1
              && Series.all (fun x : Z => dt_ge x min_reads) isoform2) eqn:G.
    + apply andb_prop in G as [G1 G2].
      split; apply all_ge_Forall; assumption.
    + destruct (_ || _) in F; [discriminate F|].
      repeat (destruct (_ && _) in F; [discriminate F|]).
      destruct (_ || _) in F; [|discriminate F].
      repeat (destruct (_ && _) in F; [discriminate F|]).
      discriminate F.
  - intros (C1 & C2 & G1 & G2).
    assert (isoform1 <> []) as N1
      by (intros ->; rewrite coverage_nil in C1; discriminate C1).
    assert (isoform2 <> []) as N2
      by (intros ->; rewrite coverage_nil in C2; discriminate C2).
    apply all_ge_Forall in G1, G2.
    exists (Kept isoform1), (Kept isoform2).
    rewrite classifier_covered by assumption.
    unfold first_match, rule_table, List.find, rule_holds. cbv zeta.
    rewrite G1, G2, (all_ge_not_all_zero _ _ Hm N1 G1),
      (all_ge_not_all_zero _ _ Hm N2 G2).
    reflexivity.
  - intros r1 r2 E. apply Inv in E as (_ & _ & _ & E). exact E.
Qed.

Lemma case3_iff_fully_covered_witness :
  exists r1 r2,
    _single_isoform_maybe_reject [12] [15; 30] 3 10 10 = Ok (r1, r2, case3).
Proof.
  apply (proj1 (case3_iff_fully_covered [12] [15; 30] 3 10 10 eq_refl)).
  repeat split; repeat constructor; discriminate.
Defined.

(** ** Rows *)

Section row_facts.

Context {T : Type} `{Dtype T}.

Lemma row_get_cases (sample : row T) (label : string) :
  ((label ∈ map fst sample) /\ exists v, Row.get sample label = Ok v)
  \/ ((label ∉ map fst sample) /\ Row.get sample label = Raise KeyError).
Proof.
  induction sample as [|[l v] sample IH]; cbn.
  - right. split; [intros Hin; inversion Hin | reflexivity].
  - destruct (decide (l = label)) as [->|Hne].
    + left. split; [apply list_elem_of_here | eauto].
    + destruct IH as [[Hin Hv]|[Hin Hv]].
      * left. split; [apply list_elem_of_further, Hin | exact Hv].
      * right. split; [|exact Hv].
        intros Hl. apply elem_of_cons in Hl as [Hl|Hl]; [congruence|auto].
Qed.

Lemma row_select_cases (sample : row T) (labels : list string) :
  (Forall (fun l => l ∈ map fst sample) labels
   /\ exists vs, Row.select sample labels = Ok vs
                 /\ length vs = length labels)
  \/ (Exists (fun l => l ∉ map fst sample) labels
      /\ Row.select sample labels = Raise KeyError).
Proof.
  unfold Row.select.
  induction labels as [|l labels IH]; cbn.
  - left. split; [constructor | exists []; auto].
  - destruct (row_get_cases sample l) as [[Hin [v Hv]]|[Hin Hv]]; rewrite Hv.
    + rewrite bind_Ok. destruct IH as [[Hall (vs & -> & Hlen)]|[Hex ->]].
      * left. split; [constructor; assumption|].
        exists (v :: vs). cbn. split; [reflexivity | congruence].
      * right. split; [apply Exists_cons_tl, Hex | reflexivity].
    + right. split; [apply Exists_cons_hd, Hin | reflexivity].
Qed.

End row_facts.

(** X14.  [_single_maybe_reject] raises [KeyError] exactly when one of
    the isoform ids is not a label of the sample; when all are labels it
    raises [IndexError] exactly when one of the two id lists is empty,
    and returns otherwise. *)
Theorem single_maybe_reject_errors {T : Type} `{Dtype T}
    (sample : row T) (ids1 ids2 : list string)
    (n_junctions min_reads m : Z) :
  let call := _single_maybe_reject sample ids1 ids2 n_junctions min_reads m in
  let known := Forall (fun l => l ∈ map fst sample) (ids1 ++ ids2)%list in
  (call = Raise KeyError <-> ~ known)
  /\ (call = Raise IndexError <-> known /\ (ids1 = [] \/ ids2 = []))
  /\ (returns call <-> known /\ ids1 <> [] /\ ids2 <> []).
Proof.
  intros call known. subst call known.
  unfold _single_maybe_reject, returns.
  rewrite Forall_app.
  destruct (row_select_cases sample ids1)
    as [[K1 (reads1 & -> & L1)]|[K1 ->]].
  2:{ apply Exists_not_Forall in K1. settle_call. }
  rewrite bind_Ok.
  destruct (row_select_cases sample ids2)
    as [[K2 (reads2 & -> & L2)]|[K2 ->]].
  2:{ apply Exists_not_Forall in K2. settle_call. }
  rewrite bind_Ok.
  assert (ids1 = [] <-> reads1 = []) as E1.
  { destruct ids1, reads1; cbn in L1; split; congruence. }
  assert (ids2 = [] <-> reads2 = []) as E2.
  { destruct ids2, reads2; cbn in L2; split; congruence. }
  destruct (classifier_empty_or_returns reads1 reads2 n_junctions min_reads m)
    as [[Hemp ->]|(Hne1 & Hne2 & r1 & r2 & label & ->)].
  - settle_call.
  - rewrite bind_Ok.
    assert (exists j,
              match r1 with
              | NoReads =>
                  Ok (JudgedRow (map (fun '(l, _) => (l, None)) sample) label)
              | _ =>
                  Ok (JudgedRow (map (fun '(l, v) => (l, Some v)) sample) label)
              end = Ok j) as [j ->] by (destruct r1; eauto).
    settle_call.
Qed.

Lemma single_maybe_reject_errors_witness :
  _single_maybe_reject [("j13", 12); ("j23", 4)] ["j13"] ["j12"; "j23"]
    3 10 10
  = Raise KeyError.
Proof.
  apply (proj2 (proj1 (single_maybe_reject_errors
                         [("j13", 12); ("j23", 4)] ["j13"] ["j12"; "j23"]
                         3 10 10))).
  intros K. inversion K as [|? ? _ K2]. inversion K2 as [|? ? K3 _].
  apply elem_of_cons in K3 as [K3|K3]; [discriminate K3|].
  apply list_elem_of_singleton in K3. discriminate K3.
Defined.

(** X15.  The row [_single_maybe_reject] returns has the labels of the
    sample, in the same order, and is either the sample's own reads on
    every label or NaN on every label. *)
Theorem single_maybe_reject_row {T : Type} `{Dtype T}
    (sample : row T) (ids1 ids2 : list string) (n_junctions min_reads m : Z)
    (judged : judged_row T) :
  _single_maybe_reject sample ids1 ids2 n_junctions min_reads m = Ok judged ->
  map fst (cells judged) = map fst sample
  /\ (cells judged = map (fun c => (c.1, Some c.2)) sample
      \/ cells judged = map (fun c => (c.1, None)) sample).
Proof.
  unfold _single_maybe_reject. intros E.
  apply bind_inv_Ok in E as (reads1 & _ & E).
  apply bind_inv_Ok in E as (reads2 & _ & E).
  apply bind_inv_Ok in E as ([[r1 r2] label] & _ & E).
  assert (map (fun '(l, v) => (l, Some v)) sample
          = map (fun c => (c.1, Some c.2)) sample) as A
    by (apply map_ext; intros [l v]; reflexivity).
  assert (map (fun '(l, _) => (l, @None T)) sample
          = map (fun c => (c.1, None)) sample) as B
    by (apply map_ext; intros [l v]; reflexivity).
  destruct r1; injection E as <-; cbn [cells]; rewrite ?A, ?B;
    (split; [rewrite map_map; apply map_ext; intros c; reflexivity | auto]).
Qed.

Lemma single_maybe_reject_row_witness :
  map fst [("j13", Some 12); ("j12", Some 9)] = map fst [("j13", 12); ("j12", 9)]
  /\ ([("j13", Some 12); ("j12", Some 9)]
      = map (fun c => (c.1, Some c.2)) [("j13", 12); ("j12", 9)]
      \/ [("j13", Some 12); ("j12", Some 9)]
         = map (fun c => (c.1, None)) [("j13", 12); ("j12", 9)]).
Proof.
  apply (single_maybe_reject_row [("j13", 12); ("j12", 9)] ["j13"] ["j12"]
           2 10 10
           (JudgedRow [("j13", Some 12); ("j12", Some 9)]
              "Case 5: Isoform1 totally covered and isoform2 not, option a: There are sufficient junction reads")).
  reflexivity.
Defined.

(** ** Judging the samples of an event *)








(** X18.  Lines 246-248 with the key of one column: the columns stay,
    the samples that are left keep their order, and a sample is left
    exactly when [>= min_reads] is false of its read on that column. *)
Theorem illegal_coverage_filter {T : Type} `{Dtype T}
    (reads kept : frame T) (label : string) (min_reads : Z) :
  without_illegal_coverage reads (IllegalColumn label) min_reads = Ok kept ->
  frame_columns kept = frame_columns reads
  /\ sublist (frame_rows kept) (frame_rows reads)
  /\ forall sample_id values,
       (sample_id, values) ∈ frame_rows kept
       <-> ((sample_id, values) ∈ frame_rows reads)
           /\ exists v,
                Row.get (combine (frame_columns reads) values) label = Ok v
                /\ dt_ge v min_reads = false.
Proof.
  unfold without_illegal_coverage, drop_illegal_coverage.
  destruct (decide _); [|discriminate].
  intros E. apply bind_inv_Ok in E as (rows & Er & E). injection E as <-.
  split; [reflexivity|]. cbn [frame_rows].
  split; [eapply drop_illegal_rows_sublist, Er|].
  apply drop_illegal_rows_spec, Er.
Qed.

Lemma illegal_coverage_filter_witness :
  ("s2", [20; 20; 0])
  ∈ frame_rows (Frame ["j13"; "j12"; "j14"] [("s2", [20; 20; 0])]).
Proof.
  destruct (illegal_coverage_filter
              (Frame ["j13"; "j12"; "j14"]
                 [("s1", [20; 20; 12]); ("s2", [20; 20; 0])])
              (Frame ["j13"; "j12"; "j14"] [("s2", [20; 20; 0])])
              "j14" 10) as (_ & _ & Hk); [vm_compute; reflexivity|].
  apply Hk. split.
  - apply list_elem_of_further, list_elem_of_here.
  - exists 0. split; reflexivity.
Defined.


(** ** Event reducer, on any table *)

Section reducer_any_table.

Context {T : Type} `{Dtype T}.

Lemma of_sample_nonempty (reads : junction_reads T) (s : string) :
  Reads.of_sample reads s <> [] <-> exists j v, (j, s, v) ∈ reads.
Proof.
  split.
  - intros Nx.
    destruct (Reads.of_sample reads s) as [|v x] eqn:E; [done|].
    assert (v ∈ Reads.of_sample reads s) as Hv
      by (rewrite E; apply list_elem_of_here).
    apply list_elem_of_fmap in Hv as ([[j s'] v'] & -> & Hv).
    apply list_elem_of_filter in Hv as [Hs Hv]. cbn in Hs. subst s'.
    eauto.
  - intros (j & v & Hin) E.
    assert (v ∈ Reads.of_sample reads s) as Hv.
    { apply list_elem_of_fmap. exists (j, s, v). split; [reflexivity|].
      apply list_elem_of_filter. auto. }
    rewrite E in Hv. inversion Hv.
Qed.

(** The value a sample holds in the result, read back from the table. *)
Lemma filter_and_scale_value
    (reads : junction_reads T) (n_junctions : Z) (method : string)
    (values : gmap string (option scalar)) (s : string) (v : option scalar) :
  _filter_and_scale reads n_junctions method = PerSample values ->
  values !! s = Some v ->
  Reads.of_sample reads s <> []
  /\ v = _scale (Reads.of_sample reads s) n_junctions method.
Proof.
  intros E Hs.
  destruct reads as [|e reads]; [discriminate E|].
  destruct (filter_and_scale_lookup (e :: reads) n_junctions method)
    as (values' & E' & Hv); [discriminate|].
  rewrite E in E'. injection E' as <-.
  rewrite Hv in Hs.
  destruct (Reads.of_sample (e :: reads) s) as [|v0 x]; [discriminate Hs|].
  cbv zeta in Hs.
  destruct (decide (n_junctions > 1
                    /\ Z.of_nat (length (v0 :: x)) <> n_junctions));
    [discriminate Hs|].
  injection Hs as <-. split; [discriminate | reflexivity].
Qed.

End reducer_any_table.

(** X20.  Whatever the table holds, [_filter_and_scale] gives a value to
    exactly the samples that occur in it and, when [n_junctions > 1],
    have exactly [n_junctions] entries; with [n_junctions <= 1] no sample
    is dropped, however many entries it has. *)
Theorem filter_and_scale_keeps_iff {T : Type} `{Dtype T}
    (reads : junction_reads T) (n_junctions : Z) (method : string) :
  reads <> [] ->
  exists values,
    _filter_and_scale reads n_junctions method = PerSample values
    /\ forall s,
         is_Some (values !! s)
         <-> (exists j v, (j, s, v) ∈ reads)
             /\ (n_junctions <= 1
                 \/ Z.of_nat (length (Reads.of_sample reads s))
                    = n_junctions).
Proof.
  intros Nr.
  destruct (filter_and_scale_lookup reads n_junctions method Nr)
    as (values & E & Hv).
  exists values. split; [exact E|]. intros s.
  rewrite Hv, <- of_sample_nonempty.
  destruct (Reads.of_sample reads s) as [|v x].
  - split; [intros [? Em]; discriminate Em | intros [Nx _]; done].
  - cbv zeta.
    destruct (decide (n_junctions > 1
                      /\ Z.of_nat (length (v :: x)) <> n_junctions))
      as [[Hn Hl]|Hd].
    + split; [intros [? Em]; discriminate Em | intros [_ [Hc|Hc]]; lia].
    + split; [|eauto]. intros _. split; [done|].
      destruct (decide (n_junctions <= 1)); [auto|].
      right. destruct (decide (Z.of_nat (length (v :: x)) = n_junctions));
        [assumption|]. exfalso. apply Hd. split; [lia | assumption].
Qed.

Lemma filter_and_scale_keeps_iff_witness :
  exists values,
    _filter_and_scale
      [("j12", "s1", 10); ("j12", "s1", 20); ("j12", "s2", 7)] 1 "mean"
    = PerSample values
    /\ is_Some (values !! "s1") /\ is_Some (values !! "s2").
Proof.
  destruct (filter_and_scale_keeps_iff
              [("j12", "s1", 10); ("j12", "s1", 20); ("j12", "s2", 7)]
              1 "mean") as (values & E & Hv); [discriminate|].
  exists values. split; [exact E|]. split; apply Hv.
  - split; [|left; discriminate].
    exists "j12", 10. apply list_elem_of_here.
  - split; [|left; discriminate].
    exists "j12", 7. do 2 apply list_elem_of_further. apply list_elem_of_here.
Defined.

Lemma total_Permutation (x y : list Z) : x ≡ₚ y -> total x = total y.
Proof.
  unfold total.
  induction 1 as [|a x y _ IH|a b x|x y z _ IH1 _ IH2]; cbn; lia.
Qed.

Lemma int64_min_Permutation (x y : list Z) :
  x ≡ₚ y -> dt_min x = dt_min y.
Proof.
  intros P.
  destruct x as [|a x].
  { apply Permutation_nil_l in P. subst y. reflexivity. }
  destruct y as [|b y].
  { apply Permutation_nil_r in P. discriminate P. }
  destruct (int64_min_spec (a :: x)) as (z & -> & Hz & Hle); [done|].
  destruct (int64_min_spec (b :: y)) as (z' & -> & Hz' & Hle'); [done|].
  f_equal. apply Z.le_antisymm.
  - apply Hle. rewrite P. exact Hz'.
  - apply Hle'. rewrite <- P. exact Hz.
Qed.

Lemma scale_Permutation (x y : list Z) (n_junctions : Z) (method : string) :
  x ≡ₚ y -> _scale x n_junctions method = _scale y n_junctions method.
Proof.
  intros P. unfold _scale, Series.sum. cbn [dt_sum int64].
  fold (total x). fold (total y).
  rewrite (total_Permutation x y P), (int64_min_Permutation x y P).
  reflexivity.
Qed.

Lemma of_sample_Permutation {T : Type} (reads reads' : junction_reads T)
    (s : string) :
  reads ≡ₚ reads' -> Reads.of_sample reads s ≡ₚ Reads.of_sample reads' s.
Proof.
  intros P. unfold Reads.of_sample.
  apply (fmap_Permutation Reads.value), filter_Permutation, P.
Qed.

(** X21.  On int64 reads the result of [_filter_and_scale] does not
    depend on the order of the rows of the table. *)
Theorem filter_and_scale_row_order
    (reads reads' : junction_reads Z) (n_junctions : Z) (method : string) :
  reads ≡ₚ reads' ->
  _filter_and_scale reads n_junctions method
  = _filter_and_scale reads' n_junctions method.
Proof.
  intros P.
  destruct reads as [|e0 reads0].
  { apply Permutation_nil_l in P.
    destruct reads'; [reflexivity | discriminate P]. }
  set (reads := e0 :: reads0) in *.
  assert (reads <> []) as Nr by discriminate.
  assert (reads' <> []) as Nr'
    by (intros ->; apply Permutation_nil_r in P; discriminate P).
  destruct (filter_and_scale_lookup reads n_junctions method Nr)
    as (values & -> & Hv).
  destruct (filter_and_scale_lookup reads' n_junctions method Nr')
    as (values' & -> & Hv').
  f_equal. apply map_eq. intros s. rewrite Hv, Hv'.
  pose proof (of_sample_Permutation reads reads' s P) as Ps.
  destruct (Reads.of_sample reads s) as [|a x].
  { apply Permutation_nil_l in Ps.
    destruct (Reads.of_sample reads' s); [reflexivity | discriminate Ps]. }
  destruct (Reads.of_sample reads' s) as [|b y].
  { apply Permutation_nil_r in Ps. discriminate Ps. }
  cbv zeta.
  rewrite (Permutation_length Ps), (scale_Permutation _ _ _ _ Ps).
  reflexivity.
Qed.

Lemma filter_and_scale_row_order_witness :
  _filter_and_scale
    [("j12", "s1", 10); ("j12", "s2", 7); ("j23", "s1", 20)] 2 "mean"
  = _filter_and_scale
      [("j23", "s1", 20); ("j12", "s1", 10); ("j12", "s2", 7)] 2 "mean".
Proof.
  apply filter_and_scale_row_order.
  change [("j23", "s1", 20); ("j12", "s1", 10); ("j12", "s2", 7)]
    with ([("j23", "s1", 20)] ++ [("j12", "s1", 10); ("j12", "s2", 7)])%list.
  change [("j12", "s1", 10); ("j12", "s2", 7); ("j23", "s1", 20)]
    with ([("j12", "s1", 10); ("j12", "s2", 7)] ++ [("j23", "s1", 20)])%list.
  apply Permutation_app_comm.
Defined.

(** *** Signs of the doubles the reducer computes *)

Lemma round_aux_sign (sx : bool) (mx ex : Z) (lx : location) :
  sign_bit (binary_round_aux F64.prec F64.emax sx mx ex lx) = sx
  \/ binary_round_aux F64.prec F64.emax sx mx ex lx = S754_nan.
Proof.
  unfold binary_round_aux.
  destruct (shr_fexp _ _ mx ex lx) as [mrs' e'].
  destruct (shr_fexp _ _ _ e' loc_Exact) as [mrs'' e''].
  destruct (shr_m mrs''); [auto | destruct (_ <=? _); auto | auto].
Qed.

Lemma of_Z_sign (z : Z) : 0 <= z -> sign_bit (F64.of_Z z) = false.
Proof.
  intros Hz. unfold F64.of_Z, binary_normalize.
  destruct z as [|p|p]; [reflexivity | | lia].
  unfold binary_round. destruct (shl_align _ _) as [mz ez].
  destruct (round_aux_sign false (Z.pos mz) ez loc_Exact) as [E| ->];
    [exact E | reflexivity].
Qed.

Lemma div_sign (x y : spec_float) :
  sign_bit x = false -> sign_bit y = false ->
  sign_bit (F64.div x y) = false.
Proof.
  unfold F64.div, SFdiv.
  destruct x as [sx|sx| |sx mx ex], y as [sy|sy| |sy my ey]; cbn;
    try (intros -> ->; reflexivity); try reflexivity.
  intros -> ->. destruct (SFdiv_core_binary _ _ _ _ _ _) as [[mz ez] lz].
  destruct (round_aux_sign (xorb false false) mz ez lz) as [E| ->];
    [exact E | reflexivity].
Qed.

Lemma sign_not_below_zero (f : spec_float) :
  sign_bit f = false -> below_zero (Float f) = false.
Proof.
  destruct f as [[]|[]| |[] m e]; cbn; intros E;
    try discriminate E; reflexivity.
Qed.

Lemma total_nonneg (x : list Z) : (forall v, v ∈ x -> 0 <= v) -> 0 <= total x.
Proof.
  induction x as [|a x IH]; intros Hx; cbn; [lia|].
  assert (0 <= a) by (apply Hx, list_elem_of_here).
  assert (0 <= total x)
    by (apply IH; intros v Hv; apply Hx, list_elem_of_further, Hv).
  unfold total in *. lia.
Qed.

(** X22.  Reads under [min_reads] are not flagged: from a table of int64
    reads that are not negative and whose sum, sample by sample, fits in
    64 bits, with a positive junction count, every value of the result
    is a number for which [< 0] is false, so the result never holds the
    flag -1 that [_remove_insufficient_reads] looks for. *)
Theorem reduced_values_nonneg
    (reads : junction_reads Z) (n_junctions : Z) (method : string)
    (values : gmap string (option scalar)) :
  0 < n_junctions ->
  method = "mean" \/ method = "min" ->
  (forall e, e ∈ reads -> 0 <= Reads.value e) ->
  (forall s, in_int64 (total (Reads.of_sample reads s))) ->
  _filter_and_scale reads n_junctions method = PerSample values ->
  forall s v, values !! s = Some v ->
    exists x, v = Some x /\ below_zero x = false.
Proof.
  intros Hn Hm Hpos Hfit E s v Hs.
  destruct (filter_and_scale_value _ _ _ _ _ _ E Hs) as [Nx ->].
  assert (forall u, u ∈ Reads.of_sample reads s -> 0 <= u) as Hx.
  { intros u Hu. apply list_elem_of_fmap in Hu as (e & -> & Hu).
    apply list_elem_of_filter in Hu as [_ Hu]. apply Hpos, Hu. }
  specialize (Hfit s).
  set (x := Reads.of_sample reads s) in *.
  destruct Hm as [-> | ->].
  - rewrite scale_mean, (wrap64_small _ Hfit).
    eexists. split; [reflexivity|].
    apply sign_not_below_zero, div_sign; apply of_Z_sign;
      [apply total_nonneg, Hx | lia].
  - unfold _scale.
    rewrite decide_False by discriminate. rewrite decide_True by reflexivity.
    destruct (int64_min_spec x Nx) as (z & -> & Hz & _).
    eexists. split; [reflexivity|]. cbn [below_zero].
    apply Z.ltb_ge, Hx, Hz.
Qed.

Lemma reduced_values_nonneg_witness :
  exists x, Some (Int 3) = Some x /\ below_zero x = false.
Proof.
  apply (reduced_values_nonneg [("j12", "s1", 3); ("j23", "s1", 20)] 2 "min"
           {[ "s1" := Some (Int 3) ]} eq_refl (or_intror eq_refl)) with "s1".
  - intros e He.
    repeat (apply elem_of_cons in He as [->|He]; [discriminate|]).
    inversion He.
  - intros s. rewrite !of_sample_cons.
    repeat destruct (decide _); in_range.
  - vm_compute. reflexivity.
  - reflexivity.
Defined.

(** Where the sum wraps the mean is negative. *)
Example reduced_value_negative_on_overflow :
  _scale [2 ^ 62; 2 ^ 62] 2 "mean" = Some (Float (F64.of_Z (- 2 ^ 62)))
  /\ below_zero (Float (F64.of_Z (- 2 ^ 62))) = true.
Proof. split; vm_compute; reflexivity. Qed.

(** ** Dropping flagged samples *)

Lemma negative_false (v : Q) : FloatSeries.negative v = false <-> (0 <= v)%Q.
Proof.
  unfold FloatSeries.negative. rewrite negb_false_iff. apply Qle_bool_iff.
Qed.

(** What each result of [_remove_insufficient_reads] holds for a sample:
    the sample is kept when it is in one of the two indexes and neither
    filled value is negative, and then holds its filled value. *)
Lemma remove_insufficient_lookup
    (isoform1 isoform2 : gmap string (option Q)) (k : string) :
  let out := _remove_insufficient_reads isoform1 isoform2 in
  let a1 := filled (isoform1 !! k) in
  let a2 := filled (isoform2 !! k) in
  let keep :=
    bool_decide (is_Some (isoform1 !! k) \/ is_Some (isoform2 !! k))
    && negb (FloatSeries.negative a1 || FloatSeries.negative a2) in
  out.1 !! k = (if keep then Some a1 else None)
  /\ out.2 !! k = (if keep then Some a2 else None).
Proof.
  cbv zeta. unfold _remove_insufficient_reads. cbn [fst snd].
  unfold FloatSeries.drop_masked, FloatSeries.any_negative,
    FloatSeries.fillna0, FloatSeries.align_outer, filled.
  rewrite !map_lookup_filter. cbn [fst].
  rewrite !lookup_merge, !lookup_fmap, !lookup_merge.
  destruct (isoform1 !! k) as [v1|], (isoform2 !! k) as [v2|]; cbn;
    [| | | auto];
    destruct (FloatSeries.negative _ || FloatSeries.negative _); cbn;
    [ rewrite !option_guard_False by discriminate
    | rewrite !option_guard_True by reflexivity
    | rewrite !option_guard_False by discriminate
    | rewrite !option_guard_True by reflexivity
    | rewrite !option_guard_False by discriminate
    | rewrite !option_guard_True by reflexivity ]; auto.
Qed.

(** X23.  The two Series [_remove_insufficient_reads] returns have the
    same index. *)
Theorem remove_insufficient_same_index
    (isoform1 isoform2 : gmap string (option Q)) :
  dom (_remove_insufficient_reads isoform1 isoform2).1
  = dom (_remove_insufficient_reads isoform1 isoform2).2.
Proof.
  apply set_eq. intros k. rewrite !elem_of_dom.
  destruct (remove_insufficient_lookup isoform1 isoform2 k) as [-> ->].
  destruct (_ && _); split; intros [x H]; try discriminate H; eauto.
Qed.

(** X24.  A sample is in the results of [_remove_insufficient_reads]
    exactly when it is in the index of one of the two inputs and neither
    of its values is negative, a value that is missing or NaN counting
    as 0; each result then holds its own value, 0 where it was missing. *)
Theorem remove_insufficient_keeps_iff
    (isoform1 isoform2 : gmap string (option Q)) (k : string) (x1 x2 : Q) :
  let out := _remove_insufficient_reads isoform1 isoform2 in
  out.1 !! k = Some x1 /\ out.2 !! k = Some x2
  <-> (is_Some (isoform1 !! k) \/ is_Some (isoform2 !! k))
      /\ x1 = filled (isoform1 !! k) /\ x2 = filled (isoform2 !! k)
      /\ (0 <= x1)%Q /\ (0 <= x2)%Q.
Proof.
  cbv zeta.
  destruct (remove_insufficient_lookup isoform1 isoform2 k) as [-> ->].
  destruct (bool_decide _) eqn:Ep; cbn [andb].
  - apply bool_decide_eq_true in Ep.
    destruct (FloatSeries.negative (filled (isoform1 !! k))) eqn:N1;
      [|destruct (FloatSeries.negative (filled (isoform2 !! k))) eqn:N2];
      cbn [orb negb].
    + assert (~ (0 <= filled (isoform1 !! k))%Q) as N
        by (rewrite <- negative_false, N1; discriminate).
      split; [intros [H _]; discriminate H|].
      intros (_ & -> & _ & H & _). contradiction.
    + assert (~ (0 <= filled (isoform2 !! k))%Q) as N
        by (rewrite <- negative_false, N2; discriminate).
      split; [intros [H _]; discriminate H|].
      intros (_ & _ & -> & _ & H). contradiction.
    + apply negative_false in N1, N2. split.
      * intros [H1 H2]. injection H1 as <-. injection H2 as <-. auto.
      * intros (_ & -> & -> & _). auto.
  - apply bool_decide_eq_false in Ep.
    split; [intros [H _]; discriminate H | intros [H _]; contradiction].
Qed.

Lemma remove_insufficient_keeps_iff_witness :
  (_remove_insufficient_reads
     {[ "s1" := Some 4%Q; "s2" := Some 3%Q ]} {[ "s2" := Some 6%Q ]}).1
  !! "s1" = Some 4%Q
  /\ (_remove_insufficient_reads
        {[ "s1" := Some 4%Q; "s2" := Some 3%Q ]} {[ "s2" := Some 6%Q ]}).2
     !! "s1" = Some 0%Q.
Proof.
  apply (remove_insufficient_keeps_iff
           {[ "s1" := Some 4%Q; "s2" := Some 3%Q ]} {[ "s2" := Some 6%Q ]}
           "s1" 4%Q 0%Q).
  split; [left; vm_compute; eauto|].
  repeat split; discriminate.
Defined.

(** X25.  [_remove_insufficient_reads] is idempotent: applied to its own
    results it returns them unchanged. *)
Theorem remove_insufficient_idempotent
    (isoform1 isoform2 : gmap string (option Q)) :
  let out := _remove_insufficient_reads isoform1 isoform2 in
  _remove_insufficient_reads (Some <$> out.1) (Some <$> out.2) = out.
Proof.
  cbv zeta.
  set (out := _remove_insufficient_reads isoform1 isoform2).
  rewrite (surjective_pairing out).
  rewrite (surjective_pairing (_remove_insufficient_reads _ _)).
  assert (forall k,
            (_remove_insufficient_reads (Some <$> out.1) (Some <$> out.2)).1
            !! k = out.1 !! k
            /\ (_remove_insufficient_reads (Some <$> out.1) (Some <$> out.2)).2
               !! k = out.2 !! k) as H.
  { intros k.
    destruct (remove_insufficient_lookup (Some <$> out.1) (Some <$> out.2) k)
      as [-> ->].
    rewrite !lookup_fmap. subst out.
    destruct (remove_insufficient_lookup isoform1 isoform2 k) as [-> ->].
    destruct (bool_decide (is_Some (isoform1 !! k) \/ is_Some (isoform2 !! k))
              && negb (FloatSeries.negative (filled (isoform1 !! k))
                       || FloatSeries.negative (filled (isoform2 !! k))))
      eqn:K.
    - cbn. apply andb_prop in K as [_ K]. rewrite K. auto.
    - cbn. auto. }
  f_equal; apply map_eq; intros k; apply H.
Qed.


(** ** Event PSI calculator and table builder, on any input *)






(** ** Missing reads *)

Lemma SFltb_nan_l (x : spec_float) : SFltb S754_nan x = false.
Proof. reflexivity. Qed.

Lemma SFltb_nan_r (x : spec_float) : SFltb x S754_nan = false.
Proof. destruct x; reflexivity. Qed.

(** X28.  On float64 reads the coverage filter lets through every
    isoform that has a NaN among its first two reads, whatever the other
    read and the multiplier: no comparison with NaN holds. *)
Theorem coverage_filter_passes_nan
    (a b : spec_float) (rest : list spec_float) (m : Z) :
  F64.is_nan a = true \/ F64.is_nan b = true ->
  _single_sample_check_unequal_read_coverage (a :: b :: rest) m
  = Ok (Some (a :: b :: rest)).
Proof.
  intros Hn. rewrite coverage_pair. cbn [dt_gt dt_mul float64].
  destruct Hn as [Hn|Hn]; [destruct a | destruct b]; try discriminate Hn;
    rewrite ?SFltb_nan_l, ?SFltb_nan_r, ?andb_false_r; reflexivity.
Qed.

Lemma coverage_filter_passes_nan_witness :
  _single_sample_check_unequal_read_coverage
    [F64.of_Z 500; F64.nan; F64.of_Z 3] 10
  = Ok (Some [F64.of_Z 500; F64.nan; F64.of_Z 3]).
Proof.
  apply (coverage_filter_passes_nan (F64.of_Z 500) F64.nan [F64.of_Z 3] 10).
  right. reflexivity.
Defined.
